(** * Bluesky post explainer: the ReAct agent loop, its tools and the
      evaluation harness, embedded from the Python sources

    - [Py]       the Python built-ins the program relies on ([str.split],
                 [str.strip], [in], list indexing, exceptions);
    - [Tools]    agent/tools.py;
    - [Core]     agent/core.py ([BlueskyAgent.run]);
    - [Harness]  eval/harness.py.

    Text is modelled over the one-byte code points (0..255): a Python [str]
    is a [list ascii], and [str.isspace] / [str.lower] are Python's,
    restricted to that range.  Network collaborators (the chat model, the
    search, vision and post backends, the judge) are oracles that take the
    time of the call, so that they may answer differently at every call. *)

From Stdlib Require Import Ascii String Bool Arith ZArith QArith Lia List.
Import ListNotations.

Close Scope Q_scope.
Open Scope nat_scope.
Open Scope list_scope.

(* ===================================================================== *)
(** ** Python built-ins *)
(* ===================================================================== *)

Module Py.

Definition str := list ascii.

(** A string literal of the source. *)
Definition lit (s : string) : str := list_ascii_of_string s.

(** The double quote and the line feed, for literals that hold them. *)
Definition dq : str := [ascii_of_nat 34].
Definition nl : str := [ascii_of_nat 10].

Definition str_eqb (a b : str) : bool :=
  if list_eq_dec ascii_dec a b then true else false.

(** *** Exceptions

    Only subclasses of [Exception] are modelled: what [except Exception]
    catches.  [msg] is [str(e)]. *)

Inductive exn_class :=
| IndexError | KeyError | TypeError | ZeroDivisionError
| OtherError (cls : str).

Record exn := Exn { kind : exn_class; msg : str }.

Inductive exc (A : Type) : Type :=
| Ok (a : A)
| Raise (e : exn).
Arguments Ok {A} a.
Arguments Raise {A} e.

Definition bind {A B} (m : exc A) (k : A -> exc B) : exc B :=
  match m with
  | Ok a => k a
  | Raise e => Raise e
  end.

Declare Scope exc_scope.
Delimit Scope exc_scope with exc.
Notation "x <- m ;; k" := (bind m (fun x => k))
  (at level 61, m at next level, right associativity) : exc_scope.
Notation "' p <- m ;; k" := (bind m (fun x => match x with p => k end))
  (at level 61, p pattern, m at next level, right associativity) : exc_scope.

(** [try: m  except Exception as e: h e] *)
Definition try_except {A} (m : exc A) (h : exn -> A) : A :=
  match m with
  | Ok a => a
  | Raise e => h e
  end.

(** [l[i]] for a list and a non-negative index. *)
Definition getitem {A} (l : list A) (i : nat) : exc A :=
  match nth_error l i with
  | Some x => Ok x
  | None => Raise (Exn IndexError (lit "list index out of range"))
  end.

(** *** Strings *)

(** [s.startswith(p)] *)
Fixpoint startswith (p s : str) : bool :=
  match p, s with
  | [], _ => true
  | _ :: _, [] => false
  | a :: p', b :: s' => Ascii.eqb a b && startswith p' s'
  end.

(** [s.find(sub)]: the lowest index where [sub] occurs, [None] for -1. *)
Fixpoint find (sub s : str) : option nat :=
  if startswith sub s then Some 0
  else match s with
       | [] => None
       | _ :: s' => option_map S (find sub s')
       end.

(** [sub in s] *)
Definition contains (sub s : str) : bool :=
  match find sub s with
  | Some _ => true
  | None => false
  end.

(** [s.split(sep)] for a non-empty [sep]: cut at the occurrences of [sep],
    found left to right and not overlapping.  Every cut consumes at least
    one character, so [length s] rounds are enough ([split_fuel_enough]). *)
Fixpoint split_fuel (fuel : nat) (sep s : str) : list str :=
  match find sep s with
  | None => [s]
  | Some i =>
      match fuel with
      | 0 => [s]
      | S fuel' =>
          firstn i s :: split_fuel fuel' sep (skipn (i + length sep) s)
      end
  end.

Definition split (sep s : str) : list str := split_fuel (length s) sep s.

(** The text before the first occurrence of [sub] (all of [s] when there
    is none) and the text after it. *)
Definition before_first (sub s : str) : str :=
  match find sub s with
  | Some i => firstn i s
  | None => s
  end.

Definition after_first (sub s : str) : str :=
  match find sub s with
  | Some i => skipn (i + length sub) s
  | None => []
  end.

(** [sep.join(l)] *)
Fixpoint join (sep : str) (l : list str) : str :=
  match l with
  | [] => []
  | [x] => x
  | x :: l' => x ++ sep ++ join sep l'
  end.

(** [c.isspace()] on the code points below 256: 9..13, 28..32, 133, 160. *)
Definition isspace (c : ascii) : bool :=
  let n := nat_of_ascii c in
  ((9 <=? n) && (n <=? 13)) || ((28 <=? n) && (n <=? 32))
  || (n =? 133) || (n =? 160).

Fixpoint lstrip (s : str) : str :=
  match s with
  | [] => []
  | c :: s' => if isspace c then lstrip s' else s
  end.

Definition rstrip (s : str) : str := rev (lstrip (rev s)).

(** [s.strip()] *)
Definition strip (s : str) : str := rstrip (lstrip s).

(** [c.lower()] on the code points below 256: A..Z and the upper-case
    letters of 192..222 (215, the multiplication sign, apart). *)
Definition lower_char (c : ascii) : ascii :=
  let n := nat_of_ascii c in
  if ((65 <=? n) && (n <=? 90))
     || ((192 <=? n) && (n <=? 222) && negb (n =? 215))
  then ascii_of_nat (n + 32) else c.

(** [s.lower()] *)
Definition lower (s : str) : str := map lower_char s.

End Py.

(* ===================================================================== *)
(** ** agent/tools.py *)
(* ===================================================================== *)

Module Tools.
Import Py.

(** [class Tool]: a name, a description and [execute], taking keywords.  The loop
    always calls [execute] with exactly one keyword argument, so the
    keyword arguments are a key and a value; [now] is the time of the
    call. *)
Record Tool := {
  name : str;
  description : str;
  execute : nat -> str -> str -> exc str
}.

(** Binding the keywords of a call to a method's parameters. *)
Definition unexpected_keyword (qualname key : str) : exn :=
  Exn TypeError
      (qualname ++ lit "() got an unexpected keyword argument '"
                ++ key ++ lit "'").

Definition missing_positional (qualname param : str) : exn :=
  Exn TypeError
      (qualname ++ lit "() missing 1 required positional argument: '"
                ++ param ++ lit "'").

(** One entry of [ddgs.text(...)]. *)
Record hit := { title : str; href : str; body : str }.

(** [post_thread.thread.post]: the record's text and the embed view. *)
Definition image := option str.          (* [fullsize], when it has one *)

Inductive embed :=
| NoEmbed                                 (* no [embed], or a falsy one *)
| ImagesView (images : list image)        (* has [images] *)
| MediaView (media_images : option (list image))
                                          (* has [media]; [media.images]? *)
| OtherView.

Record post_view := { text : str; post_embed : embed }.

Section Backends.

(** [DDGS().text(query, max_results=...)] *)
Variable ddgs_text : nat -> str -> nat -> exc (list hit).
(** the vision chat completion, giving [message.content] *)
Variable vision_completions : nat -> str -> exc str.
(** [client.resolve_handle(handle).did] *)
Variable resolve_handle : nat -> str -> exc str.
(** [client.get_post_thread(uri=uri).thread.post], when it has one *)
Variable get_post_thread : nat -> str -> exc (option post_view).

(** [SearchTool.execute(query, max_results=5)] *)
Definition SearchTool_execute
           (now : nat) (query : str) (max_results : nat) : str :=
  try_except
    (results <- ddgs_text now query max_results ;;
     let formatted_results :=
       map (fun r => lit "Title: " ++ title r ++ nl
                     ++ lit "URL: " ++ href r ++ nl
                     ++ lit "Snippet: " ++ body r) results in
     Ok (match formatted_results with
         | [] => lit "No results found."
         | _ => join (nl ++ nl) formatted_results
         end))%exc
    (fun e => lit "Error performing search: " ++ msg e).

Definition SearchTool : Tool := {|
  name := lit "search";
  description := lit "Useful for finding current information, technical documentation, or explaining memes. Input should be a search query.";
  execute := fun now key value =>
    if str_eqb key (lit "query") then Ok (SearchTool_execute now value 5)
    else if str_eqb key (lit "max_results")
    then Raise (missing_positional (lit "SearchTool.execute") (lit "query"))
    else Raise (unexpected_keyword (lit "SearchTool.execute") key)
|}.

(** [VisionTool.execute(image_url)] *)
Definition VisionTool_execute (now : nat) (image_url : str) : str :=
  try_except (vision_completions now image_url)
             (fun e => lit "Error analyzing image: " ++ msg e).

Definition VisionTool : Tool := {|
  name := lit "vision";
  description := lit "Useful for describing the content of an image from a URL. Input should be the image URL.";
  execute := fun now key value =>
    if str_eqb key (lit "image_url") then Ok (VisionTool_execute now value)
    else Raise (unexpected_keyword (lit "VisionTool.execute") key)
|}.

(** Lines 93-95: the handle and the record key of a post URL. *)
Definition parse_url (url : str) : exc (str * str) :=
  (segment <- getitem (split (lit "bsky.app/profile/") url) 1 ;;
   let parts := split (lit "/post/") segment in
   handle <- getitem parts 0 ;;
   tail <- getitem parts 1 ;;
   rkey <- getitem (split (lit "/") tail) 0 ;;
   Ok (handle, rkey))%exc.

(** The [Image URL:] lines of lines 113-123. *)
Definition image_lines (imgs : list image) : str :=
  concat (map (fun img => match img with
                          | Some fullsize => nl ++ lit "Image URL: " ++ fullsize
                          | None => []
                          end) imgs).

Definition embed_lines (e : embed) : str :=
  match e with
  | ImagesView imgs => image_lines imgs
  | MediaView (Some imgs) => image_lines imgs
  | _ => []
  end.

(** [BlueskyTool.execute(url)]; the import of [atproto] succeeds. *)
Definition BlueskyTool_execute (now : nat) (url : str) : str :=
  try_except
    (if negb (contains (lit "bsky.app/profile/") url)
        || negb (contains (lit "/post/") url)
     then Ok (lit "Error: Invalid Bluesky URL format.")
     else
       ' (handle, rkey) <- parse_url url ;;
       did <- resolve_handle now handle ;;
       let uri := lit "at://" ++ did ++ lit "/app.bsky.feed.post/" ++ rkey in
       thread <- get_post_thread now uri ;;
       match thread with
       | Some post =>
           Ok (lit "Post Content by @" ++ handle ++ lit ":" ++ nl
                   ++ text post ++ embed_lines (post_embed post))
       | None =>
           Ok (lit "Error: Could not retrieve post content. Post might be deleted or private.")
       end)%exc
    (fun e => lit "Error fetching Bluesky post: " ++ msg e).

Definition BlueskyTool : Tool := {|
  name := lit "bluesky_fetch";
  description := lit "Useful for fetching the actual text content of a Bluesky post given its URL. Input should be the full Bluesky post URL.";
  execute := fun now key value =>
    if str_eqb key (lit "url") then Ok (BlueskyTool_execute now value)
    else Raise (unexpected_keyword (lit "BlueskyTool.execute") key)
|}.

(** [get_tools()]: the registry, a dict in insertion order. *)
Definition get_tools : list (str * Tool) :=
  [ (lit "search", SearchTool);
    (lit "vision", VisionTool);
    (lit "bluesky_fetch", BlueskyTool) ].

End Backends.

(** [name in tools] and [tools[name]] on the registry. *)
Fixpoint lookup (name : str) (tools : list (str * Tool)) : option Tool :=
  match tools with
  | [] => None
  | (k, t) :: rest => if str_eqb name k then Some t else lookup name rest
  end.

End Tools.

(* ===================================================================== *)
(** ** The world the program runs in *)
(* ===================================================================== *)

Module Runtime.
Import Py.

(** One message of a chat: a dict with the keys [role] and [content]. *)
Record turn := { role : str; content : str }.

(** What the program does to the outside and to the agent's history, in
    the order it happens. *)
Inductive event :=
| HistorySet (h : list turn)
    (* [self.history = ...], [self.history.append(...)]: the new value *)
| ChatCompletion (model : str) (messages : list turn)
    (* [self.client.chat.completions.create(...)] of the agent *)
| ToolExecute (tool key value : str)
    (* [self.tools[tool].execute(key=value)] *)
| JudgeCompletion (messages : list turn).
    (* [self.judge_client.chat.completions.create(...)] of the harness *)

(** The mutable field [history] of the agent and the events so far.  The
    length of the trace is the time an oracle is asked at. *)
Record world := { history : list turn; trace : list event }.

(** Statements: they change the world, and return or raise. *)
Definition M (A : Type) := world -> exc A * world.

Definition ret {A} (a : A) : M A := fun w => (Ok a, w).

Definition lift {A} (m : exc A) : M A := fun w => (m, w).

Definition bindM {A B} (m : M A) (k : A -> M B) : M B :=
  fun w => match m w with
           | (Ok a, w') => k a w'
           | (Raise e, w') => (Raise e, w')
           end.

Declare Scope M_scope.
Delimit Scope M_scope with M.
Notation "x <- m ;; k" := (bindM m (fun x => k))
  (at level 61, m at next level, right associativity) : M_scope.
Notation "' p <- m ;; k" := (bindM m (fun x => match x with p => k end))
  (at level 61, p pattern, m at next level, right associativity) : M_scope.
Notation "m ;; k" := (bindM m (fun _ => k))
  (at level 61, right associativity) : M_scope.

(** [try: m  except Exception as e: h e]; what [m] did before it raised
    stays done. *)
Definition try_M {A} (m : M A) (h : exn -> M A) : M A :=
  fun w => match m w with
           | (Ok a, w') => (Ok a, w')
           | (Raise e, w') => h e w'
           end.

Definition set_history (h : list turn) : M unit :=
  fun w => (Ok tt, {| history := h; trace := trace w ++ [HistorySet h] |}).

Definition append_history (t : turn) : M unit :=
  fun w => let h := history w ++ [t] in
           (Ok tt, {| history := h; trace := trace w ++ [HistorySet h] |}).

End Runtime.

(* ===================================================================== *)
(** ** agent/core.py *)
(* ===================================================================== *)

Module Core.
Import Py Tools Runtime.

(** The fields of a [BlueskyAgent] that [run] never assigns; [history] is
    in the world. *)
Record Agent := {
  model_name : str;
  tools : list (str * Tool);
  max_steps : nat
}.

(** [tool.execute(key=value)] on the entry [name] of the registry. *)
Definition call (name : str) (tool : Tool) (key value : str) : M str :=
  fun w => (execute tool (length (trace w)) key value,
            {| history := history w;
               trace := trace w ++ [ToolExecute name key value] |}).

Definition Final_Answer : str := lit "Final Answer:".
Definition Action : str := lit "Action:".
Definition Action_Input : str := lit "Action Input:".

Definition exhausted : str :=
  lit "Error: Maximum steps reached without a final answer.".

Definition instructive : str :=
  lit "Observation: I need to specify an Action and Action Input to use a tool, or provide a Final Answer.".

Section Agent.

(** The chat model: the time of the call, the model name and the
    messages give [response.choices[0].message.content], or the call
    raises. *)
Variable llm : nat -> str -> list turn -> exc str.

(** Python's [repr] of the list of the tool names, as the system prompt
    shows it. *)
Variable repr_keys : list str -> str.

Variable self : Agent.

(** [self._construct_system_prompt()] *)
Definition _construct_system_prompt : str :=
  let tool_descriptions :=
    join nl (map (fun '(name, tool) =>
                    lit "- " ++ name ++ lit ": " ++ description tool)
                 (tools self)) in
  lit "You are an advanced AI assistant designed to explain Bluesky posts, memes, and technical jargon to a general audience.
You have access to the following tools:

"
  ++ tool_descriptions
  ++ lit "

You function as a ReAct (Reason + Act) agent. For each step, you must follow this format STRICTLY:

Thought: [Your reasoning about what information is missing or what to do next]
Action: [The name of the tool to use, e.g., 'search' or 'vision']
Action Input: [The input for the tool, e.g., a search query or image URL]

Once you receive an Observation, you will repeat the cycle until you have enough information.
When you are ready to provide the final answer, use this format:

Thought: I have sufficient information.
Final Answer:
* [Point 1] (Source)
* [Point 2] (Source)
* ...

PROTOCOL (Prioritized Decision Tree):

1. **MISSING CONTENT CHECK**:
   - Is the post content missing but a URL is provided?
   - If YES: Use `bluesky_fetch` to retrieve the text.
   - Then proceed to Step 2 with the fetched text.

2. **CHECK FOR IMAGES (CONTEXT ASSEMBLY)**:
   - Does the post (or fetched content) contain an image URL?
   - If YES: **Use the `vision` tool immediately** to get a description.
   - Combine the Post Text + Image Description for the next steps.

3. **ANALYZE CONTENT SIMPLICITY**: 
   - Is the combined context (Text + Image) strictly about simple, common knowledge?
   - If YES: **Do NOT search.** Provide a final Answer immediately.
   - If NO: Proceed to step 4.

4. **CHECK FOR JARGON/MEMES**:
   - Does the post contain technical jargon, memes, or slang that isn't explained by the image?
   - If YES: Use the `search` tool to find definitions or origins.

5. **FINALIZE**:
   - Once you have enough context, provide the Final Answer.

RULES:
- "
  ++ dq ++ lit "Action" ++ dq
  ++ lit " must be one of "
  ++ repr_keys (map fst (tools self))
  ++ lit ".
- If no search results are found, try a different query.
- **Output the Final Answer as a list of bullet points.**
".

(** Lines 91-95. *)
Definition chat : M str :=
  fun w => (llm (length (trace w)) (model_name self) (history w),
            {| history := history w;
               trace := trace w
                        ++ [ChatCompletion (model_name self) (history w)] |}).

(** Lines 108-112: the action name and the action input. *)
Definition extract (llm_output : str) : exc (str * str) :=
  (action_line <-
     getitem (filter (startswith Action) (split nl llm_output)) 0 ;;
   after_action <- getitem (split Action action_line) 1 ;;
   let action_name := lower (strip after_action) in
   input_line <-
     getitem (filter (startswith Action_Input) (split nl llm_output)) 0 ;;
   after_input <- getitem (split Action_Input input_line) 1 ;;
   let action_input := strip after_input in
   Ok (action_name, action_input))%exc.

(** Lines 115-127: the observation of a tool call. *)
Definition dispatch (action_name action_input : str) : M str :=
  match lookup action_name (tools self) with
  | Some tool =>
      (tool_result <-
         (if str_eqb action_name (lit "search")
          then call action_name tool (lit "query") action_input
          else if str_eqb action_name (lit "bluesky_fetch")
          then call action_name tool (lit "url") action_input
          else call action_name tool (lit "image_url") action_input) ;;
       ret (lit "Observation: " ++ tool_result))%M
  | None =>
      ret (lit "Observation: Error: Tool '" ++ action_name
               ++ lit "' not found.")
  end.

(** Lines 105-132: the observation of a step that is not final. *)
Definition observe (llm_output : str) : M str :=
  if contains Action llm_output && contains Action_Input llm_output
  then
    try_M (' (action_name, action_input) <- lift (extract llm_output) ;;
           dispatch action_name action_input)%M
          (fun e => ret (lit "Observation: Error parsing action: "
                             ++ msg e))
  else ret instructive.

(** Lines 87-138.  [None] is for fuel that ran out, which
    [max_steps + 1] rounds never do. *)
Fixpoint while_loop (fuel step_count : nat) : M (option str) :=
  match fuel with
  | 0 => ret None
  | S fuel' =>
      if step_count <? max_steps self then
        (raw <- chat ;;
         let llm_output := strip raw in
         append_history {| role := lit "assistant";
                           content := llm_output |} ;;
         if contains Final_Answer llm_output then
           answer <- lift (getitem (split Final_Answer llm_output) 1) ;;
           ret (Some (strip answer))
         else
           observation <- observe llm_output ;;
           append_history {| role := lit "user";
                             content := observation |} ;;
           while_loop fuel' (S step_count))%M
      else ret (Some exhausted)
  end.

Definition run_fuel (fuel : nat) (post_content post_url : str)
  : M (option str) :=
  (set_history
     [ {| role := lit "system"; content := _construct_system_prompt |};
       {| role := lit "user";
          content := lit "Please explain this Bluesky post:" ++ nl
                     ++ lit "URL: " ++ post_url ++ nl
                     ++ lit "Content: " ++ post_content |} ] ;;
   while_loop fuel 0)%M.

(** [self.run(post_content, post_url)] *)
Definition run (post_content post_url : str) : M (option str) :=
  run_fuel (S (max_steps self)) post_content post_url.

End Agent.

End Core.

(* ===================================================================== *)
(** ** eval/harness.py *)
(* ===================================================================== *)

Module Harness.
Import Py Tools Runtime Core.

(** What [json.loads] gives.  Numbers with a fraction or an exponent
    (Python floats) are left out of the model. *)
#[warnings="-register-all"] Inductive json :=
| JNull
| JBool (b : bool)
| JInt (z : Z)
| JStr (s : str)
| JList (l : list json)
| JDict (d : list (str * json)).

(** One case of eval/cases.json: [id], [post_content] (optional),
    [post_url] and [gold_standard]. *)
Record Case := {
  case_id : json;
  post_content : option str;
  post_url : str;
  gold_standard : str
}.

(** The dict [evaluate_case] returns. *)
Record Result := {
  result_id : json;
  agent_output : str;
  scores : json
}.

(** One entry of [benchmark_results].  The averages are kept exact, where
    Python rounds the quotient of the two integers to a double. *)
Record Stats := {
  avg_factuality : Q;
  avg_utility : Q;
  details : list Result
}.

(** [d[key] = value] on a dict in insertion order. *)
Fixpoint dict_set {V} (d : list (str * V)) (key : str) (value : V)
  : list (str * V) :=
  match d with
  | [] => [(key, value)]
  | (k, v) :: rest =>
      if str_eqb k key then (k, value) :: rest
      else (k, v) :: dict_set rest key value
  end.

Fixpoint dict_get {V} (d : list (str * V)) (key : str) : option V :=
  match d with
  | [] => None
  | (k, v) :: rest => if str_eqb k key then Some v else dict_get rest key
  end.

Definition type_name (j : json) : str :=
  match j with
  | JNull => lit "NoneType"
  | JBool _ => lit "bool"
  | JInt _ => lit "int"
  | JStr _ => lit "str"
  | JList _ => lit "list"
  | JDict _ => lit "dict"
  end.

(** [j[key]] for a string [key]. *)
Definition subscript (j : json) (key : str) : exc json :=
  match j with
  | JDict d =>
      match dict_get d key with
      | Some v => Ok v
      | None => Raise (Exn KeyError (lit "'" ++ key ++ lit "'"))
      end
  | JList _ =>
      Raise (Exn TypeError
                 (lit "list indices must be integers or slices, not str"))
  | JStr _ =>
      Raise (Exn TypeError (lit "string indices must be integers, not 'str'"))
  | _ =>
      Raise (Exn TypeError
                 (lit "'" ++ type_name j ++ lit "' object is not subscriptable"))
  end.

(** [total + j] for an integer [total], as [sum] adds. *)
Definition add (total : Z) (j : json) : exc Z :=
  match j with
  | JInt z => Ok (total + z)%Z
  | JBool b => Ok (total + (if b then 1 else 0))%Z
  | _ =>
      Raise (Exn TypeError
                 (lit "unsupported operand type(s) for +: 'int' and '"
                      ++ type_name j ++ lit "'"))
  end.

(** [sum(r['scores'][key] for r in model_results)] *)
Fixpoint sum_scores (key : str) (total : Z) (model_results : list Result)
  : exc Z :=
  match model_results with
  | [] => Ok total
  | r :: rest =>
      (v <- subscript (scores r) key ;;
       total' <- add total v ;;
       sum_scores key total' rest)%exc
  end.

(** [a / n] for an integer [a] and a length [n]. *)
Definition truediv (a : Z) (n : nat) : exc Q :=
  match n with
  | 0 => Raise (Exn ZeroDivisionError (lit "division by zero"))
  | S _ => Ok (Qmake a (Pos.of_nat n))
  end.

(** The reply [_judge_output] gives when judging raised. *)
Definition judging_error : json :=
  JDict [ (lit "factuality", JInt 0);
          (lit "utility", JInt 0);
          (lit "reasoning", JStr (lit "Error in judging.")) ].

Section Harness.

Variable llm : nat -> str -> list turn -> exc str.
Variable repr_keys : list str -> str.
Variable ddgs_text : nat -> str -> nat -> exc (list hit).
Variable vision_completions : nat -> str -> exc str.
Variable resolve_handle : nat -> str -> exc str.
Variable get_post_thread : nat -> str -> exc (option post_view).

(** The judge model: the time of the call and the messages give
    [response.choices[0].message.content], or the call raises. *)
Variable judge : nat -> list turn -> exc str.
(** [json.loads] *)
Variable json_loads : str -> exc json.

(** [self.cases], as [json.load] read them. *)
Variable cases : list Case.

(** [BlueskyAgent(model_name=...)]: a new agent, its history empty. *)
Definition BlueskyAgent (model_name : str) : M Agent :=
  (set_history [] ;;
   ret {| model_name := model_name;
          tools := get_tools ddgs_text vision_completions
                             resolve_handle get_post_thread;
          max_steps := 5 |})%M.

Definition judge_prompt (original_post gold_standard agent_output : str)
  : str :=
  lit "
        You are an impartial judge evaluating an AI agent's ability to explain social media posts.
        
        Original Post: "
  ++ original_post
  ++ lit "
        Gold Standard Context: "
  ++ gold_standard
  ++ lit "
        
        Agent Explanation: "
  ++ agent_output
  ++ lit "
        
        Evaluate the Agent Explanation on two metrics (1-5 scale):
        1. Factuality: Is the information true and consistent with the Gold Standard?
        2. Utility: Is the explanation helpful, clear, and does it provide necessary context?
        
        Output valid JSON only:
        {
            "
  ++ dq
  ++ lit "factuality"
  ++ dq
  ++ lit ": <int>,
            "
  ++ dq
  ++ lit "utility"
  ++ dq
  ++ lit ": <int>,
            "
  ++ dq
  ++ lit "reasoning"
  ++ dq
  ++ lit ": "
  ++ dq
  ++ lit "<short explanation>"
  ++ dq
  ++ lit "
        }
        ".

Definition judge_chat (messages : list turn) : M str :=
  fun w => (judge (length (trace w)) messages,
            {| history := history w;
               trace := trace w ++ [JudgeCompletion messages] |}).

(** [self._judge_output(original_post, gold_standard, agent_output)] *)
Definition _judge_output
           (original_post gold_standard agent_output : str) : M json :=
  let prompt := judge_prompt original_post gold_standard agent_output in
  try_M (reply <- judge_chat
                    [ {| role := lit "system";
                         content := lit "You are an evaluation judge." |};
                      {| role := lit "user"; content := prompt |} ] ;;
         lift (json_loads reply))%M
        (fun _ => ret judging_error).

(** [self.evaluate_case(case)], [agent] being [self.agent].  [None] is
    for a run out of fuel, which there is none of. *)
Definition evaluate_case (agent : Agent) (case : Case)
  : M (option Result) :=
  (out <- try_M (let content_input :=
                   match post_content case with
                   | Some c => c
                   | None => []
                   end in
                 run llm repr_keys agent content_input (post_url case))
                (fun e => ret (Some (lit "Error: " ++ msg e))) ;;
   match out with
   | None => ret None
   | Some agent_output =>
       score <- _judge_output
                  (match post_content case with
                   | Some c => c
                   | None => lit "Contentfetched from URL"
                   end)
                  (gold_standard case) agent_output ;;
       ret (Some {| result_id := case_id case;
                    agent_output := agent_output;
                    scores := score |})
   end)%M.

(** Lines 81-84: the results of one model, case by case. *)
Fixpoint evaluate_cases (agent : Agent) (cs : list Case)
  : M (option (list Result)) :=
  match cs with
  | [] => ret (Some [])
  | case :: rest =>
      (r <- evaluate_case agent case ;;
       match r with
       | None => ret None
       | Some result =>
           rs <- evaluate_cases agent rest ;;
           ret (option_map (cons result) rs)
       end)%M
  end.

(** Lines 86-94: the averages of one model. *)
Definition averages (model_results : list Result) : exc Stats :=
  (fact <- sum_scores (lit "factuality") 0%Z model_results ;;
   avg_fact <- truediv fact (length model_results) ;;
   util <- sum_scores (lit "utility") 0%Z model_results ;;
   avg_util <- truediv util (length model_results) ;;
   Ok {| avg_factuality := avg_fact;
         avg_utility := avg_util;
         details := model_results |})%exc.

(** Lines 78-94: the body of the loop over the models. *)
Definition benchmark_model (model : str) : M (option Stats) :=
  (agent <- BlueskyAgent model ;;
   rs <- evaluate_cases agent cases ;;
   match rs with
   | None => ret None
   | Some model_results =>
       stats <- lift (averages model_results) ;;
       ret (Some stats)
   end)%M.

(** Lines 75-94 of [run_benchmark(models)]: [benchmark_results], which
    the rest of the method prints and writes to the two files. *)
Fixpoint benchmark_loop (models : list str)
         (benchmark_results : list (str * Stats))
  : M (option (list (str * Stats))) :=
  match models with
  | [] => ret (Some benchmark_results)
  | model :: rest =>
      (s <- benchmark_model model ;;
       match s with
       | None => ret None
       | Some stats =>
           benchmark_loop rest (dict_set benchmark_results model stats)
       end)%M
  end.

Definition run_benchmark (models : list str)
  : M (option (list (str * Stats))) :=
  benchmark_loop models [].

(** The default of [models]. *)
Definition default_models : list str := [lit "gpt-4o"; lit "gpt-4o-mini"].

End Harness.

End Harness.

(* ===================================================================== *)
(** ** main.py *)
(* ===================================================================== *)

Module Main.
Import Py Tools Runtime Core.

(** The truth value of an optional string: [None] and the empty string are
    false. *)
Definition truthy (o : option str) : bool :=
  match o with
  | Some (_ :: _) => true
  | _ => false
  end.

Definition value_or (o : option str) (default : str) : str :=
  match o with
  | Some (c :: s) => c :: s
  | _ => default
  end.

Definition missing_input : str :=
  lit "Error: Please provide --url or --content.".

Definition missing_key : str :=
  lit "Error: OPENAI_API_KEY not found in environment variables.".

Definition content_not_provided : str :=
  lit "Content not provided, please use variable search to find the post content if needed.".

Section Main.

Variable llm : nat -> str -> list turn -> exc str.
Variable repr_keys : list str -> str.
Variable ddgs_text : nat -> str -> nat -> exc (list hit).
Variable vision_completions : nat -> str -> exc str.
Variable resolve_handle : nat -> str -> exc str.
Variable get_post_thread : nat -> str -> exc (option post_view).

(** [os.getenv("OPENAI_API_KEY")] *)
Variable api_key : option str.

(** The first [print] of [main]. *)
Definition banner (post_url post_content : str) : str :=
  lit "Initializing Bluesky Agent..." ++ nl
      ++ lit "URL: " ++ post_url ++ nl
      ++ lit "Content: " ++ post_content ++ nl.

(** [main()], [url] and [content] being [args.url] and [args.content].  It
    gives what [main] itself prints, one entry for each [print]. *)
Definition main (url content : option str) (w : world) : list str * world :=
  if negb (truthy url) && negb (truthy content) then ([missing_input], w)
  else
    let post_content := value_or content content_not_provided in
    let post_url := value_or url [] in
    if negb (truthy api_key)
    then ([banner post_url post_content; missing_key], w)
    else
      match (agent <- Harness.BlueskyAgent
                        ddgs_text vision_completions resolve_handle
                        get_post_thread (lit "gpt-4o") ;;
             run llm repr_keys agent post_content post_url)%M w with
      | (Ok (Some explanation), w') =>
          ([banner post_url post_content;
            nl ++ lit "=== Agent Explanation ===" ++ nl;
            explanation], w')
      | (Ok None, w') => ([banner post_url post_content], w')
      | (Raise e, w') =>
          ([banner post_url post_content;
            lit "An error occurred: " ++ msg e], w')
      end.

End Main.

End Main.

(* ===================================================================== *)
(** ** The vocabulary of the claims *)
(* ===================================================================== *)

Module Spec.
Import Py Tools Runtime Core Harness.

Definition assistant_turn (text : str) : turn :=
  {| role := lit "assistant"; content := text |}.

Definition user_turn (text : str) : turn :=
  {| role := lit "user"; content := text |}.

(** The model invocations of a trace. *)
Fixpoint invocations (t : list event) : nat :=
  match t with
  | [] => 0
  | ChatCompletion _ _ :: t' => S (invocations t')
  | _ :: t' => invocations t'
  end.

(** The tool calls of a trace. *)
Fixpoint tool_calls (t : list event) : nat :=
  match t with
  | [] => 0
  | ToolExecute _ _ _ :: t' => S (tool_calls t')
  | _ :: t' => tool_calls t'
  end.

(** The role of turn [i] of a transcript: system, user, then assistant and
    user in turns. *)
Definition expected_role (i : nat) : str :=
  match i with
  | 0 => lit "system"
  | 1 => lit "user"
  | _ => if Nat.even i then lit "assistant" else lit "user"
  end.

Definition transcript_ok (h : list turn) : Prop :=
  2 <= length h
  /\ forall i t, nth_error h i = Some t -> role t = expected_role i.

(** Every value the history takes, and every list of messages sent to the
    model, is a transcript. *)
Definition event_ok (e : event) : Prop :=
  match e with
  | HistorySet h => transcript_ok h
  | ChatCompletion _ messages => transcript_ok messages
  | _ => True
  end.

(** The world after the model answered [llm_output] to the history of [w]:
    the call and the assistant turn. *)
Definition answered (model : str) (w : world) (llm_output : str) : world :=
  let h := history w ++ [assistant_turn llm_output] in
  {| history := h;
     trace := trace w ++ [ChatCompletion model (history w); HistorySet h] |}.

(** The world after a whole step that went on: the tool events [evs], if
    any, and the observation as a user turn. *)
Definition observed (model : str) (w : world) (llm_output : str)
           (evs : list event) (observation : str) : world :=
  let w1 := answered model w llm_output in
  let h := history w1 ++ [user_turn observation] in
  {| history := h; trace := trace w1 ++ evs ++ [HistorySet h] |}.

(** The transcript a run starts from: the system prompt and the task. *)
Definition seed (repr_keys : list str -> str) (self : Agent)
           (post_content post_url : str) : list turn :=
  [ {| role := lit "system";
       content := _construct_system_prompt repr_keys self |};
    {| role := lit "user";
       content := lit "Please explain this Bluesky post:" ++ nl
                  ++ lit "URL: " ++ post_url ++ nl
                  ++ lit "Content: " ++ post_content |} ].

(** What a dispatch gives when it passes [input] to [tool] under [key]:
    the tool's result as an observation, or what the tool raised, and the
    call in the trace. *)
Definition passed (tool : Tool) (name key input : str) (w : world)
  : exc str * world :=
  (bind (execute tool (length (trace w)) key input)
        (fun tool_result => Ok (lit "Observation: " ++ tool_result)),
   {| history := history w;
      trace := trace w ++ [ToolExecute name key input] |}).

(** [line] is the first line of [text] that begins with [marker]. *)
Definition first_line (marker text line : str) : Prop :=
  exists before rest,
    split nl text = before ++ line :: rest
    /\ Forall (fun l => startswith marker l = false) before
    /\ startswith marker line = true.

(** The text of a line after its leading [marker], up to the next
    occurrence of [marker] in the line if there is one. *)
Definition after_marker (marker line : str) : str :=
  before_first marker (skipn (length marker) line).

(** The observation of a failure [e] in a step. *)
Definition error_observation (e : exn) : str :=
  lit "Observation: Error parsing action: " ++ msg e.

(** The observation of a tool name that is not in the registry. *)
Definition not_found_observation (action_name : str) : str :=
  lit "Observation: Error: Tool '" ++ action_name ++ lit "' not found.".

(** The markers of a post URL. *)
Definition profile_marker : str := lit "bsky.app/profile/".
Definition post_marker : str := lit "/post/".
Definition slash : str := lit "/".

(** The part of a URL the handle and the record key are looked for in: the
    text after the first [bsky.app/profile/], up to the next one if there
    is one. *)
Definition profile_segment (url : str) : str :=
  before_first profile_marker (after_first profile_marker url).

Definition invalid_url : str := lit "Error: Invalid Bluesky URL format.".

Definition index_error : exn :=
  Exn IndexError (lit "list index out of range").

(** The messages [_judge_output] sends to the judge. *)
Definition judge_messages (original_post gold_standard agent_output : str)
  : list turn :=
  [ {| role := lit "system"; content := lit "You are an evaluation judge." |};
    {| role := lit "user";
       content := judge_prompt original_post gold_standard agent_output |} ].

Definition division_by_zero : exn :=
  Exn ZeroDivisionError (lit "division by zero").

(** A rating of a score: an integer from 1 to 5. *)
Definition rating_ok (j : exc json) : bool :=
  match j with
  | Ok (JInt z) => (1 <=? z)%Z && (z <=? 5)%Z
  | _ => false
  end.

(** A JudgeScore of the specification: integer factuality and utility
    ratings from 1 to 5, and a text for the reasoning. *)
Definition JudgeScore_ok (j : json) : bool :=
  rating_ok (subscript j (lit "factuality"))
  && rating_ok (subscript j (lit "utility"))
  && match subscript j (lit "reasoning") with
     | Ok (JStr _) => true
     | _ => false
     end.

(** Every observation of a transcript, the user turns after the task,
    begins with [Observation: ]. *)
Definition observations_prefixed (h : list turn) : Prop :=
  forall i t,
    nth_error h i = Some t -> 2 <= i -> role t = lit "user" ->
    startswith (lit "Observation: ") (content t) = true.

(** A post URL of the documented shape, with what may follow the record
    key. *)
Definition post_url_of (handle rkey suffix : str) : str :=
  lit "https://" ++ profile_marker ++ handle ++ post_marker ++ rkey
      ++ suffix.

(** A result whose two ratings are integers from 1 to 5. *)
Definition ratings_in_range (r : Harness.Result) : Prop :=
  rating_ok (subscript (Harness.scores r) (lit "factuality")) = true
  /\ rating_ok (subscript (Harness.scores r) (lit "utility")) = true.

(** A judge that always gives a reply which decodes to ratings from 1 to
    5. *)
Definition judge_in_range (judge : nat -> list turn -> exc str)
           (json_loads : str -> exc Harness.json) : Prop :=
  forall now messages,
  exists reply score,
    judge now messages = Ok reply
    /\ json_loads reply = Ok score
    /\ rating_ok (subscript score (lit "factuality")) = true
    /\ rating_ok (subscript score (lit "utility")) = true.

(** The entry of a model whose averages lie between 1 and 5, over
    [n] results. *)
Definition stats_in_range (n : nat) (entry : str * Harness.Stats) : Prop :=
  (1 <= Harness.avg_factuality (snd entry) <= 5)%Q
  /\ (1 <= Harness.avg_utility (snd entry) <= 5)%Q
  /\ length (Harness.details (snd entry)) = n.

(** A step of the loop, taken at step count [n] in the world [w] with the
    fuel [S fuel], ended in the observation: the history the loop leaves
    begins with the history of [w], the assistant turn and the observation
    as a user turn, and the trace with the events of that step.  The loop
    then went on: with a step left, the next event is the call of the model
    on the history that ends in the observation; with none left, the loop
    returns the exhaustion message in just that world. *)
Definition step_observed (llm : nat -> str -> list turn -> exc str)
           (self : Agent) (fuel n : nat) (w : world) (llm_output : str)
           (evs : list event) (observation : str) : Prop :=
  exists more rest,
    snd (while_loop llm self (S fuel) n w)
    = {| history := history w
                    ++ [assistant_turn llm_output; user_turn observation]
                    ++ more;
         trace := trace w
                  ++ [ChatCompletion (model_name self) (history w);
                      HistorySet (history w ++ [assistant_turn llm_output])]
                  ++ evs
                  ++ [HistorySet
                        (history w
                         ++ [assistant_turn llm_output;
                             user_turn observation])]
                  ++ rest |}
    /\ (0 < fuel -> S n < max_steps self ->
        exists rest',
          rest = ChatCompletion
                   (model_name self)
                   (history w
                    ++ [assistant_turn llm_output; user_turn observation])
                 :: rest')
    /\ (0 < fuel -> max_steps self <= S n ->
        more = [] /\ rest = []
        /\ fst (while_loop llm self (S fuel) n w) = Ok (Some exhausted)).

(** The block the search tool gives for one hit. *)
Definition result_block (r : hit) : str :=
  lit "Title: " ++ title r ++ nl ++ lit "URL: " ++ href r ++ nl
      ++ lit "Snippet: " ++ body r.

(** The agent [main] builds, and the world it starts the run in. *)
Definition main_agent ddgs_text vision_completions resolve_handle
           get_post_thread : Agent :=
  {| model_name := lit "gpt-4o";
     tools := get_tools ddgs_text vision_completions resolve_handle
                        get_post_thread;
     max_steps := 5 |}.

Definition agent_built (w : world) : world :=
  {| history := []; trace := trace w ++ [HistorySet []] |}.

End Spec.

(* ===================================================================== *)
(** ** Concrete inputs *)
(* ===================================================================== *)

Module Examples.
Import Py Tools Runtime Core Harness.

(** Backends that are out of reach. *)
Definition unreachable : exn :=
  Exn (OtherError (lit "ConnectionError")) (lit "Connection error.").

Definition no_hits : nat -> str -> nat -> exc (list hit) :=
  fun _ _ _ => Ok [].
Definition no_vision : nat -> str -> exc str := fun _ _ => Raise unreachable.
Definition no_handle : nat -> str -> exc str := fun _ _ => Raise unreachable.
Definition no_thread : nat -> str -> exc (option post_view) :=
  fun _ _ => Raise unreachable.

(** The agent as [BlueskyAgent()] builds it. *)
Definition agent : Agent :=
  {| model_name := lit "gpt-4o";
     tools := get_tools no_hits no_vision no_handle no_thread;
     max_steps := 5 |}.

Definition repr_keys (keys : list str) : str :=
  lit "[" ++ join (lit ", ") (map (fun k => lit "'" ++ k ++ lit "'") keys)
      ++ lit "]".

Definition fresh : world := {| history := []; trace := [] |}.

(** A model that always gives the same text. *)
Definition always (text : str) : nat -> str -> list turn -> exc str :=
  fun _ _ _ => Ok text.

Definition two_markers : str := lit "Final Answer: a Final Answer: b".

Definition thinking : str := lit "Thought: let me think about it.".

(** Both markers, but [Action:] does not begin a line. *)
Definition inline_action : str :=
  lit "I will use Action: search
Action Input: cats".

(** A tool call as the prompt asks for it. *)
Definition search_cats : str :=
  lit "Thought: I need to look this up.
Action: Search
Action Input: cats in hats
and more".

(** URLs that hold both markers of a post URL without its shape. *)
Definition two_profiles : str :=
  lit "https://bsky.app/profile/a/bsky.app/profile/b/post/c".

Definition post_before_profile : str := lit "/post/bsky.app/profile/x".

Definition alice_post : str :=
  lit "https://bsky.app/profile/alice.bsky.social/post/abc123/".

(** A judge that is out of reach, and a decoder that is never asked. *)
Definition no_judge : nat -> list turn -> exc str :=
  fun _ _ => Raise unreachable.
Definition no_json : str -> exc json := fun _ => Ok JNull.

(** A tool that is not registered. *)
Definition ask_oracle : str :=
  lit "Action: oracle
Action Input: why".

(** A model that is out of reach. *)
Definition no_model : nat -> str -> list turn -> exc str :=
  fun _ _ _ => Raise unreachable.

(** A final answer at once. *)
Definition answer_now : str :=
  lit "Thought: I have sufficient information.
Final Answer:
* It is a joke.".

(** Backends that know one post. *)
Definition one_handle : nat -> str -> exc str :=
  fun _ _ => Ok (lit "did:plc:abc").

Definition one_post : post_view :=
  {| text := lit "lol this is peak";
     post_embed := ImagesView [Some (lit "https://cdn/img.jpg"); None] |}.

Definition one_thread : nat -> str -> exc (option post_view) :=
  fun _ _ => Ok (Some one_post).

Definition one_hit : nat -> str -> nat -> exc (list hit) :=
  fun _ _ _ => Ok [ {| title := lit "Peak"; href := lit "https://x";
                       body := lit "slang" |} ].

Definition a_case : Case :=
  {| case_id := JInt 1; post_content := None;
     post_url := alice_post; gold_standard := lit "a post" |}.

Definition good_result : Result :=
  {| result_id := JInt 1; agent_output := lit "* fine";
     scores := JDict [ (lit "factuality", JInt 4);
                       (lit "utility", JInt 5);
                       (lit "reasoning", JStr (lit "ok")) ] |}.

Definition failed_result : Result :=
  {| result_id := JInt 2; agent_output := lit "* fine";
     scores := judging_error |}.

(** A judge that gives a score, and the decoder of its reply. *)
Definition fair_judge : nat -> list turn -> exc str :=
  fun _ _ => Ok (lit "{}").

Definition fair_json : str -> exc json :=
  fun _ => Ok (JDict [ (lit "factuality", JInt 4);
                       (lit "utility", JInt 5);
                       (lit "reasoning", JStr (lit "ok")) ]).

(** A registry whose search tool fails, and an agent with it. *)
Definition broken_tool : Tool :=
  {| name := lit "search";
     description := lit "Out of order.";
     execute := fun _ _ _ => Raise unreachable |}.

Definition broken_agent : Agent :=
  {| model_name := lit "gpt-4o";
     tools := [(lit "search", broken_tool)];
     max_steps := 5 |}.

(** The marker again in the line of the action. *)
Definition action_twice : str :=
  lit "Action: a Action: b
Action Input: c".

(** An action without a line for its input. *)
Definition inline_input : str :=
  lit "Action: search with Action Input: cats".

End Examples.

(* ===================================================================== *)
(** ** Facts about the built-ins *)
(* ===================================================================== *)

Import Py Tools Runtime Core Spec.

Lemma str_eqb_eq (a b : str) : str_eqb a b = true <-> a = b.
Proof.
  unfold str_eqb. destruct (list_eq_dec ascii_dec a b); split; congruence.
Qed.

Lemma str_eqb_neq (a b : str) : str_eqb a b = false <-> a <> b.
Proof.
  unfold str_eqb. destruct (list_eq_dec ascii_dec a b); split; congruence.
Qed.

Lemma str_eqb_refl (a : str) : str_eqb a a = true.
Proof. now apply str_eqb_eq. Qed.

Lemma startswith_app (p t : str) : startswith p (p ++ t) = true.
Proof.
  induction p as [|a p IH]; simpl; [reflexivity|].
  now rewrite Ascii.eqb_refl, IH.
Qed.

Lemma startswith_inv (p s : str) :
  startswith p s = true -> s = p ++ skipn (length p) s.
Proof.
  revert s. induction p as [|a p IH]; intros [|b s]; simpl; try easy.
  intros H. apply andb_prop in H as [Hab Hp].
  apply Ascii.eqb_eq in Hab. subst b. f_equal. now apply IH.
Qed.

Lemma startswith_nil_r (p : str) : p <> [] -> startswith p [] = false.
Proof. destruct p; easy. Qed.

(** [find] gives the first occurrence. *)
Lemma find_Some (sub s : str) (i : nat) :
  find sub s = Some i ->
  startswith sub (skipn i s) = true
  /\ (forall j, j < i -> startswith sub (skipn j s) = false).
Proof.
  revert i. induction s as [|c s IH]; intros i; simpl.
  - destruct (startswith sub []) eqn:E; [|discriminate].
    intros [= <-]. split; [exact E | intros j Hj; lia].
  - destruct (startswith sub (c :: s)) eqn:E.
    + intros [= <-]. split; [exact E | intros j Hj; lia].
    + destruct (find sub s) as [k|]; [|discriminate].
      simpl. intros [= <-]. destruct (IH k eq_refl) as [H1 H2].
      split; [exact H1|]. intros [|j] Hj; [exact E|].
      simpl. apply H2. lia.
Qed.

Lemma find_None (sub s : str) :
  find sub s = None -> forall j, startswith sub (skipn j s) = false.
Proof.
  induction s as [|c s IH]; simpl.
  - destruct (startswith sub []) eqn:E; [discriminate|].
    intros _ j. now rewrite skipn_nil.
  - destruct (startswith sub (c :: s)) eqn:E; [discriminate|].
    destruct (find sub s); [discriminate|].
    intros _ [|j]; [exact E | simpl; now apply IH].
Qed.

Lemma find_le (sub s : str) (i : nat) :
  find sub s = Some i -> i <= length s.
Proof.
  revert i. induction s as [|c s IH]; intros i; simpl.
  - destruct (startswith sub []); [|discriminate]. intros [= <-]. lia.
  - destruct (startswith sub (c :: s)); [intros [= <-]; lia|].
    destruct (find sub s) as [k|]; [|discriminate].
    simpl. intros [= <-]. specialize (IH k eq_refl). lia.
Qed.

Lemma find_bound (sub s : str) (i : nat) :
  find sub s = Some i -> i + length sub <= length s.
Proof.
  intros H. pose proof (find_le _ _ _ H) as Hle.
  apply find_Some in H as [H _].
  apply startswith_inv in H.
  apply (f_equal (@length _)) in H.
  rewrite length_app, !length_skipn in H. lia.
Qed.

(** An occurrence cuts the text in three. *)
Lemma find_cut (sub s : str) (i : nat) :
  find sub s = Some i ->
  s = firstn i s ++ sub ++ skipn (i + length sub) s.
Proof.
  intros H. apply find_Some in H as [H _].
  apply startswith_inv in H.
  rewrite skipn_skipn in H. rewrite (Nat.add_comm (length sub) i) in H.
  rewrite <- H. symmetry. apply firstn_skipn.
Qed.

Lemma find_occurrence (sub pre post : str) :
  exists i, find sub (pre ++ sub ++ post) = Some i /\ i <= length pre.
Proof.
  destruct (find sub (pre ++ sub ++ post)) as [i|] eqn:E.
  - exists i. split; [reflexivity|].
    destruct (le_lt_dec i (length pre)) as [Hle|Hlt]; [exact Hle|].
    apply find_Some in E as [_ E]. specialize (E (length pre) Hlt).
    rewrite skipn_app, skipn_all, Nat.sub_diag in E. simpl in E.
    now rewrite startswith_app in E.
  - pose proof (find_None _ _ E (length pre)) as H.
    rewrite skipn_app, skipn_all, Nat.sub_diag in H. simpl in H.
    now rewrite startswith_app in H.
Qed.

(** [sub in s] holds exactly when [s] has [sub] somewhere. *)
Lemma contains_iff (sub s : str) :
  contains sub s = true <-> exists pre post, s = pre ++ sub ++ post.
Proof.
  unfold contains. split.
  - destruct (find sub s) as [i|] eqn:E; [|discriminate].
    intros _. exists (firstn i s), (skipn (i + length sub) s).
    now apply find_cut.
  - intros (pre & post & ->).
    destruct (find_occurrence sub pre post) as (i & -> & _). reflexivity.
Qed.

(** The built-ins on the values Python gives for them. *)
Example split_middle :
  split (lit "X") (lit "aXbXXc") = [lit "a"; lit "b"; []; lit "c"].
Proof. reflexivity. Qed.

Example split_no_overlap : split (lit "aa") (lit "aaa") = [[]; lit "a"].
Proof. reflexivity. Qed.

Example split_empty : split (lit "X") [] = [[]].
Proof. reflexivity. Qed.

Example strip_both_ends :
  strip (ascii_of_nat 9 :: lit "  a b " ++ nl) = lit "a b".
Proof. reflexivity. Qed.

Example lower_mixed : lower (lit "SeArch_1") = lit "search_1".
Proof. reflexivity. Qed.

(** *** [split] *)

Lemma split_fuel_any (sep : str) (fuel1 : nat) :
  sep <> [] ->
  forall fuel2 s, length s <= fuel1 -> length s <= fuel2 ->
  split_fuel fuel1 sep s = split_fuel fuel2 sep s.
Proof.
  intros Hsep. induction fuel1 as [|fuel1 IH]; intros fuel2 s H1 H2.
  - destruct s; [|simpl in H1; lia].
    destruct fuel2; simpl; rewrite (startswith_nil_r sep Hsep); reflexivity.
  - destruct fuel2 as [|fuel2].
    + destruct s; [|simpl in H2; lia].
      simpl. rewrite (startswith_nil_r sep Hsep). reflexivity.
    + simpl. destruct (find sep s) as [i|] eqn:E; [|reflexivity].
      f_equal. pose proof (find_bound _ _ _ E) as Hb.
      assert (0 < length sep) by (destruct sep; simpl; [congruence|lia]).
      apply IH; rewrite length_skipn; lia.
Qed.

(** The rounds [split] takes are enough: more rounds change nothing. *)
Lemma split_fuel_enough (sep s : str) (fuel : nat) :
  sep <> [] -> length s <= fuel -> split_fuel fuel sep s = split sep s.
Proof.
  intros Hsep H. unfold split. now apply split_fuel_any.
Qed.

Lemma split_eq (sep s : str) :
  sep <> [] ->
  split sep s = match find sep s with
                | None => [s]
                | Some i => firstn i s :: split sep (skipn (i + length sep) s)
                end.
Proof.
  intros Hsep. unfold split at 1. destruct s as [|c s].
  - simpl. now rewrite (startswith_nil_r sep Hsep).
  - cbn [length split_fuel]. destruct (find sep (c :: s)) as [i|] eqn:E;
      [|reflexivity].
    f_equal. apply split_fuel_enough; [exact Hsep|].
    pose proof (find_bound _ _ _ E) as Hb. cbn [length] in Hb.
    assert (0 < length sep) by (destruct sep; simpl; [congruence|lia]).
    rewrite length_skipn. cbn [length]. lia.
Qed.

Lemma split_0 (sep s : str) :
  sep <> [] -> nth_error (split sep s) 0 = Some (before_first sep s).
Proof.
  intros Hsep. rewrite (split_eq sep s Hsep). unfold before_first.
  now destruct (find sep s).
Qed.

Lemma split_1 (sep s : str) :
  sep <> [] -> contains sep s = true ->
  nth_error (split sep s) 1 = Some (before_first sep (after_first sep s)).
Proof.
  intros Hsep H. rewrite (split_eq sep s Hsep). unfold contains in H.
  unfold after_first. destruct (find sep s) as [i|]; [|discriminate].
  cbn [nth_error]. now apply split_0.
Qed.

Lemma split_1_none (sep s : str) :
  sep <> [] -> contains sep s = false -> nth_error (split sep s) 1 = None.
Proof.
  intros Hsep H. rewrite (split_eq sep s Hsep). unfold contains in H.
  now destruct (find sep s).
Qed.

Lemma join_cons (sep x : str) (l : list str) :
  l <> [] -> join sep (x :: l) = x ++ sep ++ join sep l.
Proof. destruct l; [congruence | reflexivity]. Qed.

Lemma split_not_nil (sep s : str) : sep <> [] -> split sep s <> [].
Proof.
  intros Hsep. rewrite (split_eq sep s Hsep). now destruct (find sep s).
Qed.

(** Joining the pieces with the separator gives the text back. *)
Lemma join_split (sep s : str) : sep <> [] -> join sep (split sep s) = s.
Proof.
  intros Hsep.
  assert (forall n s, length s <= n -> join sep (split sep s) = s) as H.
  { clear s. induction n as [|n IH]; intros s Hn.
    - destruct s; [|simpl in Hn; lia].
      rewrite (split_eq sep [] Hsep). simpl.
      now rewrite (startswith_nil_r sep Hsep).
    - rewrite (split_eq sep s Hsep). destruct (find sep s) as [i|] eqn:E;
        [|reflexivity].
      rewrite join_cons by now apply split_not_nil.
      rewrite IH; [symmetry; now apply find_cut|].
      pose proof (find_bound _ _ _ E) as Hb.
      assert (0 < length sep) by (destruct sep; simpl; [congruence|lia]).
      rewrite length_skipn. lia. }
  now apply (H (length s)).
Qed.

(* ===================================================================== *)
(** ** Facts about the agent loop *)
(* ===================================================================== *)

Lemma Final_Answer_not_nil : Final_Answer <> [].
Proof. discriminate. Qed.

Lemma Action_not_nil : Action <> [].
Proof. discriminate. Qed.

Lemma Action_Input_not_nil : Action_Input <> [].
Proof. discriminate. Qed.

Lemma nl_not_nil : nl <> [].
Proof. discriminate. Qed.

Lemma world_eta (w : world) :
  {| history := history w; trace := trace w ++ [] |} = w.
Proof. destruct w; simpl. now rewrite app_nil_r. Qed.

Section LoopFacts.

Variable llm : nat -> str -> list turn -> exc str.
Variable self : Agent.

Local Abbreviation loop := (while_loop llm self).
Local Abbreviation model := (model_name self).

(** A tool call changes nothing but the trace, by one event. *)
Lemma call_world (name : str) (tool : Tool) (key value : str) (w : world) :
  call name tool key value w
  = (execute tool (length (trace w)) key value,
     {| history := history w;
        trace := trace w ++ [ToolExecute name key value] |}).
Proof. reflexivity. Qed.

Lemma dispatch_world (name input : str) (w : world) :
  exists r evs,
    dispatch self name input w
    = (r, {| history := history w; trace := trace w ++ evs |})
    /\ invocations evs = 0 /\ Forall event_ok evs.
Proof.
  unfold dispatch. destruct (lookup name (tools self)) as [tool|].
  - unfold bindM.
    assert (exists key,
               (if str_eqb name (lit "search")
                then call name tool (lit "query") input
                else if str_eqb name (lit "bluesky_fetch")
                     then call name tool (lit "url") input
                     else call name tool (lit "image_url") input)
               = call name tool key input) as [key ->].
    { destruct (str_eqb name (lit "search")); [now eexists|].
      destruct (str_eqb name (lit "bluesky_fetch")); now eexists. }
    rewrite call_world.
    destruct (execute tool (length (trace w)) key input) as [r|e].
    + exists (Ok (lit "Observation: " ++ r)), [ToolExecute name key input].
      repeat split; repeat constructor.
    + exists (Raise e), [ToolExecute name key input].
      repeat split; repeat constructor.
  - eexists _, []. unfold ret. rewrite world_eta.
    repeat split; constructor.
Qed.

(** The observation of a step: always one, whatever the extraction and the
    tool do. *)
Lemma observe_total (llm_output : str) (w : world) :
  exists observation evs,
    observe self llm_output w
    = (Ok observation, {| history := history w; trace := trace w ++ evs |})
    /\ invocations evs = 0 /\ Forall event_ok evs.
Proof.
  unfold observe.
  destruct (contains Action llm_output && contains Action_Input llm_output).
  - unfold try_M, bindM, lift.
    destruct (extract llm_output) as [[name input]|e].
    + destruct (dispatch_world name input w) as (r & evs & -> & H1 & H2).
      destruct r as [observation|e].
      * now exists observation, evs.
      * eexists _, evs. unfold ret. now repeat split.
    + eexists _, []. unfold ret. rewrite world_eta.
      repeat split; constructor.
  - eexists _, []. unfold ret. rewrite world_eta.
    repeat split; constructor.
Qed.

(** The four ways through one round of the loop. *)
Lemma loop_done (fuel n : nat) (w : world) :
  max_steps self <= n -> loop (S fuel) n w = (Ok (Some exhausted), w).
Proof.
  intros H. cbn [while_loop]. apply Nat.ltb_ge in H. now rewrite H.
Qed.

Lemma loop_raise (fuel n : nat) (w : world) (e : exn) :
  n < max_steps self ->
  llm (length (trace w)) model (history w) = Raise e ->
  loop (S fuel) n w
  = (Raise e, {| history := history w;
                 trace := trace w ++ [ChatCompletion model (history w)] |}).
Proof.
  intros H E. cbn [while_loop]. apply Nat.ltb_lt in H. rewrite H.
  unfold bindM at 1. unfold chat. now rewrite E.
Qed.

Lemma loop_final (fuel n : nat) (w : world) (raw : str) :
  n < max_steps self ->
  llm (length (trace w)) model (history w) = Ok raw ->
  contains Final_Answer (strip raw) = true ->
  loop (S fuel) n w
  = (Ok (Some (strip (before_first Final_Answer
                                   (after_first Final_Answer (strip raw))))),
     answered model w (strip raw)).
Proof.
  intros H E F. cbn [while_loop]. apply Nat.ltb_lt in H. rewrite H.
  unfold bindM at 1. unfold chat. rewrite E.
  unfold bindM at 1. unfold append_history. cbn [history trace].
  rewrite F. unfold bindM, lift, getitem.
  rewrite (split_1 _ _ Final_Answer_not_nil F). unfold ret, answered.
  now rewrite <- app_assoc.
Qed.

Lemma loop_continue (fuel n : nat) (w : world) (raw obs : str)
      (evs : list event) :
  n < max_steps self ->
  llm (length (trace w)) model (history w) = Ok raw ->
  contains Final_Answer (strip raw) = false ->
  observe self (strip raw) (answered model w (strip raw))
  = (Ok obs, {| history := history (answered model w (strip raw));
                trace := trace (answered model w (strip raw)) ++ evs |}) ->
  loop (S fuel) n w = loop fuel (S n) (observed model w (strip raw) evs obs).
Proof.
  intros H E F O. cbn [while_loop]. apply Nat.ltb_lt in H. rewrite H.
  unfold bindM at 1. unfold chat. rewrite E.
  unfold bindM at 1. unfold append_history. cbn [history trace].
  rewrite F. unfold bindM at 1.
  unfold answered in O. cbn [history trace] in O.
  rewrite <- app_assoc in O. cbn [app] in O.
  rewrite <- app_assoc. cbn [app]. unfold assistant_turn in O. rewrite O.
  unfold bindM at 1. cbn [history trace].
  unfold observed, answered. cbn [history trace].
  rewrite <- !app_assoc. reflexivity.
Qed.


(** *** The transcript *)

Lemma expected_role_assistant (n : nat) :
  expected_role (2 + 2 * n) = lit "assistant".
Proof.
  cbn [expected_role Nat.add]. rewrite Nat.even_succ_succ, Nat.even_mul.
  reflexivity.
Qed.

Lemma expected_role_user (n : nat) :
  expected_role (3 + 2 * n) = lit "user".
Proof.
  cbn [expected_role Nat.add]. rewrite Nat.even_succ_succ, Nat.even_succ.
  rewrite <- Nat.negb_even, Nat.even_mul. reflexivity.
Qed.

Lemma transcript_ok_snoc (h : list turn) (t : turn) :
  transcript_ok h -> role t = expected_role (length h) ->
  transcript_ok (h ++ [t]).
Proof.
  intros [Hlen Hroles] Ht. split.
  - rewrite length_app. lia.
  - intros i t' Hi. destruct (lt_dec i (length h)) as [Hlt|Hge].
    + rewrite nth_error_app1 in Hi by exact Hlt. now apply Hroles.
    + rewrite nth_error_app2 in Hi by lia.
      destruct (i - length h) as [|k] eqn:Ek.
      * simpl in Hi. injection Hi as <-.
        replace i with (length h) by lia. exact Ht.
      * simpl in Hi. now destruct k.
Qed.

Lemma invocations_app (t1 t2 : list event) :
  invocations (t1 ++ t2) = invocations t1 + invocations t2.
Proof.
  induction t1 as [|e t1 IH]; [reflexivity|].
  destruct e; simpl; rewrite IH; reflexivity.
Qed.

(** The world after a step that went on, at the head of the next round. *)
Lemma observed_ok (n : nat) (w : world) (llm_output obs : str)
      (evs : list event) :
  transcript_ok (history w) -> length (history w) = 2 + 2 * n ->
  Forall event_ok evs ->
  transcript_ok (history (answered model w llm_output))
  /\ transcript_ok (history (observed model w llm_output evs obs))
  /\ length (history (observed model w llm_output evs obs)) = 2 + 2 * S n.
Proof.
  intros Hok Hlen Hevs.
  assert (transcript_ok (history w ++ [assistant_turn llm_output])) as H1.
  { apply transcript_ok_snoc; [exact Hok|].
    rewrite Hlen. now rewrite expected_role_assistant. }
  split; [exact H1|]. split.
  - cbn [observed answered history]. apply transcript_ok_snoc; [exact H1|].
    rewrite length_app, Hlen. cbn [length].
    replace (2 + 2 * n + 1) with (3 + 2 * n) by lia.
    now rewrite expected_role_user.
  - cbn [observed answered history]. rewrite !length_app, Hlen. simpl. lia.
Qed.

(** With fuel beyond the steps that are left, a run of the loop returns an
    answer or raises what the model raised; it calls the model no more often
    than there are steps left, and keeps the transcript one. *)
Lemma loop_invariant (fuel : nat) :
  forall n w,
    max_steps self - n < fuel ->
    transcript_ok (history w) -> length (history w) = 2 + 2 * n ->
    exists r h' evs,
      loop fuel n w = (r, {| history := h'; trace := trace w ++ evs |})
      /\ Forall event_ok evs
      /\ invocations evs <= max_steps self - n
      /\ transcript_ok h'
      /\ match r with
         | Ok (Some _) => True
         | Ok None => False
         | Raise e => exists now m h, llm now m h = Raise e
         end.
Proof.
  induction fuel as [|fuel IH]; intros n w Hfuel Hok Hlen; [lia|].
  destruct (lt_dec n (max_steps self)) as [Hn|Hn].
  - destruct (llm (length (trace w)) model (history w)) as [raw|e] eqn:E.
    + destruct (observed_ok n w (strip raw) [] [] Hok Hlen (Forall_nil _))
        as (Hans & _ & _).
      destruct (contains Final_Answer (strip raw)) eqn:F.
      * rewrite (loop_final fuel n w raw Hn E F).
        exists (Ok (Some (strip (before_first Final_Answer
                                   (after_first Final_Answer (strip raw)))))),
          (history (answered model w (strip raw))),
          [ChatCompletion model (history w);
           HistorySet (history (answered model w (strip raw)))].
        split; [reflexivity|].
        split; [apply Forall_cons; [exact Hok|];
                apply Forall_cons; [exact Hans | apply Forall_nil]|].
        split; [simpl; lia|]. split; [exact Hans | exact I].
      * destruct (observe_total (strip raw) (answered model w (strip raw)))
          as (obs & evs & O & Hinv & Hevs).
        rewrite (loop_continue fuel n w raw obs evs Hn E F O).
        destruct (observed_ok n w (strip raw) obs evs Hok Hlen Hevs)
          as (_ & Hobs & Hlen').
        destruct (IH (S n) (observed model w (strip raw) evs obs))
          as (r & h' & evs' & -> & H1 & H2 & H3 & H4);
          [lia | exact Hobs | exact Hlen' |].
        exists r, h',
          ([ChatCompletion model (history w);
            HistorySet (history (answered model w (strip raw)))]
             ++ evs
             ++ [HistorySet
                   (history (observed model w (strip raw) evs obs))]
             ++ evs').
        split.
        { cbn [observed answered history trace]. now rewrite <- !app_assoc. }
        split.
        { apply Forall_cons; [exact Hok|].
          apply Forall_cons; [exact Hans|].
          apply Forall_app; split; [exact Hevs|].
          apply Forall_cons; [exact Hobs | exact H1]. }
        split; [|now split].
        rewrite !invocations_app, Hinv. simpl. lia.
    + rewrite (loop_raise fuel n w e Hn E).
      exists (Raise e), (history w), [ChatCompletion model (history w)].
      split; [reflexivity|].
      split; [apply Forall_cons; [exact Hok | apply Forall_nil]|].
      split; [simpl; lia|]. split; [exact Hok | eexists _, _, _; exact E].
  - rewrite loop_done by lia. exists (Ok (Some exhausted)), (history w), [].
    rewrite world_eta. split; [reflexivity|]. split; [constructor|].
    split; [simpl; lia|]. split; [exact Hok | exact I].
Qed.

(** When the model always answers and never gives a final answer, the loop
    takes every step that is left and returns the exhaustion message. *)
Lemma loop_exhausts (fuel : nat) :
  (forall now m h, exists raw,
      llm now m h = Ok raw /\ contains Final_Answer (strip raw) = false) ->
  forall n w,
    n <= max_steps self -> max_steps self - n < fuel ->
    exists h' evs,
      loop fuel n w
      = (Ok (Some exhausted), {| history := h'; trace := trace w ++ evs |})
      /\ invocations evs = max_steps self - n
      /\ length h' = length (history w) + 2 * (max_steps self - n).
Proof.
  intros Hllm. induction fuel as [|fuel IH]; intros n w Hn Hfuel; [lia|].
  destruct (lt_dec n (max_steps self)) as [Hlt|Hge].
  - destruct (Hllm (length (trace w)) model (history w)) as (raw & E & F).
    destruct (observe_total (strip raw) (answered model w (strip raw)))
      as (obs & evs & O & Hinv & _).
    rewrite (loop_continue fuel n w raw obs evs Hlt E F O).
    destruct (IH (S n) (observed model w (strip raw) evs obs))
      as (h' & evs' & -> & H1 & H2); [lia | lia |].
    exists h',
      ([ChatCompletion model (history w);
        HistorySet (history (answered model w (strip raw)))]
         ++ evs
         ++ [HistorySet (history (observed model w (strip raw) evs obs))]
         ++ evs').
    split.
    { cbn [observed answered history trace]. now rewrite <- !app_assoc. }
    split.
    + rewrite !invocations_app, Hinv, H1. simpl. lia.
    + rewrite H2. cbn [observed answered history].
      rewrite !length_app. simpl. lia.
  - rewrite loop_done by lia. exists (history w), [].
    rewrite world_eta. split; [reflexivity|]. split; simpl; lia.
Qed.

End LoopFacts.

(** A run is the loop on the seeded transcript, whatever the history was. *)
Lemma run_unfold llm repr_keys self post_content post_url (w : world) :
  run llm repr_keys self post_content post_url w
  = while_loop llm self (S (max_steps self)) 0
      {| history := seed repr_keys self post_content post_url;
         trace := trace w
                  ++ [HistorySet (seed repr_keys self post_content post_url)] |}.
Proof. reflexivity. Qed.

Lemma seed_ok repr_keys self post_content post_url :
  transcript_ok (seed repr_keys self post_content post_url).
Proof.
  split; [simpl; lia|].
  intros [|[|i]] t; simpl; [now intros [= <-]..|].
  now destruct i.
Qed.

Lemma tool_calls_app (t1 t2 : list event) :
  tool_calls (t1 ++ t2) = tool_calls t1 + tool_calls t2.
Proof.
  induction t1 as [|e t1 IH]; [reflexivity|].
  destruct e; simpl; rewrite IH; reflexivity.
Qed.

Lemma before_first_none (sub s : str) :
  contains sub s = false -> before_first sub s = s.
Proof.
  unfold contains, before_first. now destruct (find sub s).
Qed.

Lemma app_eq_self {A} (l m : list A) : l = l ++ m -> m = [].
Proof.
  intros H. apply (app_inv_head l). rewrite app_nil_r. now symmetry.
Qed.

(** The loop only adds to the history and to the trace, and with fuel and
    a step left what it adds to the trace begins with the call of the model
    on the history it found. *)
Lemma loop_extends llm self (fuel : nat) :
  forall n w,
  exists more rest,
    snd (while_loop llm self fuel n w)
    = {| history := history w ++ more; trace := trace w ++ rest |}
    /\ (0 < fuel -> n < max_steps self ->
        exists rest',
          rest = ChatCompletion (model_name self) (history w) :: rest').
Proof.
  induction fuel as [|fuel IH]; intros n w.
  - exists [], []. cbn [while_loop]. unfold ret. cbn [snd].
    rewrite app_nil_r, world_eta. split; [reflexivity | lia].
  - destruct (lt_dec n (max_steps self)) as [Hn|Hn].
    + destruct (llm (length (trace w)) (model_name self) (history w))
        as [raw|e] eqn:E.
      * destruct (contains Final_Answer (strip raw)) eqn:F.
        -- rewrite (loop_final llm self fuel n w raw Hn E F).
           exists [assistant_turn (strip raw)],
             [ChatCompletion (model_name self) (history w);
              HistorySet (history w ++ [assistant_turn (strip raw)])].
           split; [reflexivity | intros _ _; now eexists].
        -- destruct (observe_total self (strip raw)
                       (answered (model_name self) w (strip raw)))
             as (obs & evs & O & _ & _).
           rewrite (loop_continue llm self fuel n w raw obs evs Hn E F O).
           destruct (IH (S n)
                        (observed (model_name self) w (strip raw) evs obs))
             as (more & rest & -> & _).
           exists ([assistant_turn (strip raw); user_turn obs] ++ more),
             ([ChatCompletion (model_name self) (history w);
               HistorySet (history w ++ [assistant_turn (strip raw)])]
                ++ evs
                ++ [HistorySet
                      (history (observed (model_name self) w (strip raw)
                                         evs obs))]
                ++ rest).
           split; [|intros _ _; now eexists].
           cbn [observed answered history trace].
           now rewrite <- !app_assoc.
      * rewrite (loop_raise llm self fuel n w e Hn E).
        exists [], [ChatCompletion (model_name self) (history w)].
        cbn [snd]. rewrite app_nil_r.
        split; [reflexivity | intros _ _; now eexists].
    + rewrite loop_done by lia. exists [], []. cbn [snd].
      rewrite app_nil_r, world_eta. split; [reflexivity | lia].
Qed.

(** A step that went on with the observation [obs] is a step observed. *)
Lemma loop_step_observed llm self (fuel n : nat) (w : world) (raw obs : str)
      (evs : list event) :
  n < max_steps self ->
  llm (length (trace w)) (model_name self) (history w) = Ok raw ->
  contains Final_Answer (strip raw) = false ->
  observe self (strip raw) (answered (model_name self) w (strip raw))
  = (Ok obs,
     {| history := history (answered (model_name self) w (strip raw));
        trace := trace (answered (model_name self) w (strip raw)) ++ evs |}) ->
  step_observed llm self fuel n w (strip raw) evs obs.
Proof.
  intros Hn E F O. unfold step_observed.
  rewrite (loop_continue llm self fuel n w raw obs evs Hn E F O).
  destruct (loop_extends llm self fuel (S n)
              (observed (model_name self) w (strip raw) evs obs))
    as (more & rest & Hw & Hnext).
  exists more, rest. split; [|split].
  - rewrite Hw. cbn [observed answered history trace].
    now rewrite <- !app_assoc.
  - intros Hfuel Hsteps. destruct (Hnext Hfuel Hsteps) as (rest' & ->).
    exists rest'. cbn [observed answered history].
    now rewrite <- !app_assoc.
  - intros Hfuel Hsteps. destruct fuel as [|fuel]; [lia|].
    rewrite loop_done in Hw |- * by exact Hsteps. cbn [snd fst] in Hw |- *.
    split; [|split; [|reflexivity]].
    + apply (app_eq_self (history (observed (model_name self) w (strip raw)
                                            evs obs))).
      exact (f_equal history Hw).
    + apply (app_eq_self (trace (observed (model_name self) w (strip raw)
                                          evs obs))).
      exact (f_equal trace Hw).
Qed.

(* ===================================================================== *)
(** ** The claims *)
(* ===================================================================== *)

(** C1, as the code has it.  When the text of an assistant turn contains
    [Final Answer:], the step returns the text after the first occurrence
    up to the next occurrence (all of it when there is no other), trimmed;
    this holds whether or not [Action:] and [Action Input:] occur, and no
    tool is called. *)
Theorem final_answer_up_to_next_marker
        llm self (fuel n : nat) (w : world) (raw : str) :
  n < max_steps self ->
  llm (length (trace w)) (model_name self) (history w) = Ok raw ->
  contains Final_Answer (strip raw) = true ->
  while_loop llm self (S fuel) n w
  = (Ok (Some (strip (before_first Final_Answer
                                   (after_first Final_Answer (strip raw))))),
     answered (model_name self) w (strip raw))
  /\ tool_calls (trace (answered (model_name self) w (strip raw)))
     = tool_calls (trace w)
  /\ (contains Final_Answer (after_first Final_Answer (strip raw)) = false ->
      before_first Final_Answer (after_first Final_Answer (strip raw))
      = after_first Final_Answer (strip raw)).
Proof.
  intros Hn E F. split; [now apply loop_final|]. split.
  - cbn [answered trace]. rewrite tool_calls_app. simpl. lia.
  - apply before_first_none.
Qed.

Lemma final_answer_up_to_next_marker_witness :
  while_loop (Examples.always Examples.two_markers) Examples.agent 6 0
             Examples.fresh
  = (Ok (Some (lit "a")),
     answered (lit "gpt-4o") Examples.fresh Examples.two_markers).
Proof.
  destruct (final_answer_up_to_next_marker
              (Examples.always Examples.two_markers) Examples.agent
              5 0 Examples.fresh Examples.two_markers) as [H _].
  - simpl. lia.
  - reflexivity.
  - reflexivity.
  - exact H.
Defined.

(** C1 as stated fails: with two markers the answer is not everything
    after the first one. *)
Lemma final_answer_not_everything_after :
  fst (run (Examples.always Examples.two_markers) Examples.repr_keys
           Examples.agent [] [] Examples.fresh)
  = Ok (Some (lit "a"))
  /\ strip (after_first Final_Answer (strip Examples.two_markers))
     = lit "a Final Answer: b"
  /\ lit "a" <> lit "a Final Answer: b".
Proof.
  split; [vm_compute; reflexivity|]. split; [vm_compute; reflexivity|].
  discriminate.
Qed.

(** C2.  A run calls the model at most [max_steps] times.  With five steps
    and a model that always answers without a final answer, the run returns
    the exhaustion message, as a value, after exactly five calls of the
    model and five completed steps (two turns each on top of the seed). *)
Theorem step_budget llm repr_keys self post_content post_url (w : world) :
  invocations (trace (snd (run llm repr_keys self post_content post_url w)))
  <= invocations (trace w) + max_steps self
  /\ (max_steps self = 5 ->
      (forall now m h, exists raw,
          llm now m h = Ok raw
          /\ contains Final_Answer (strip raw) = false) ->
      fst (run llm repr_keys self post_content post_url w)
      = Ok (Some exhausted)
      /\ invocations
           (trace (snd (run llm repr_keys self post_content post_url w)))
         = invocations (trace w) + 5
      /\ length
           (history (snd (run llm repr_keys self post_content post_url w)))
         = 2 + 2 * 5).
Proof.
  rewrite run_unfold. split.
  - edestruct (loop_invariant llm self (S (max_steps self)) 0)
      as (r & h' & evs & -> & _ & Hinv & _);
      [lia | apply seed_ok | reflexivity |].
    cbn [snd trace]. rewrite !invocations_app. simpl. lia.
  - intros H5 Hllm.
    edestruct (loop_exhausts llm self (S (max_steps self)) Hllm 0)
      as (h' & evs & -> & Hinv & Hlen); [lia | lia |].
    cbn [fst snd trace history]. split; [reflexivity|]. split.
    + rewrite !invocations_app, Hinv, H5. simpl. lia.
    + rewrite Hlen, H5. reflexivity.
Qed.

Lemma step_budget_witness :
  max_steps Examples.agent = 5
  /\ fst (run (Examples.always Examples.thinking) Examples.repr_keys
              Examples.agent [] [] Examples.fresh)
     = Ok (Some exhausted)
  /\ invocations
       (trace (snd (run (Examples.always Examples.thinking)
                        Examples.repr_keys Examples.agent [] []
                        Examples.fresh)))
     = 5.
Proof.
  split; [reflexivity|].
  destruct (step_budget (Examples.always Examples.thinking)
                        Examples.repr_keys Examples.agent [] []
                        Examples.fresh) as [_ H].
  destruct H as (H1 & H2 & _).
  - reflexivity.
  - intros now m h. exists Examples.thinking. split; reflexivity.
  - split; [exact H1 | exact H2].
Defined.

(** C3.  A run sets the history anew, to the system turn and the task, so
    that nothing of the history it found is left and a run does not depend
    on it; from there on every value the history takes, every list of
    messages the model is sent, and the history at the end have the system
    role at turn 0, the user role at turn 1, and then the assistant and the
    user role in turns. *)
Theorem transcript_invariant
        llm repr_keys self post_content post_url (w : world) :
  (exists evs h',
      snd (run llm repr_keys self post_content post_url w)
      = {| history := h';
           trace := trace w
                    ++ HistorySet (seed repr_keys self post_content post_url)
                    :: evs |}
      /\ transcript_ok (seed repr_keys self post_content post_url)
      /\ Forall event_ok evs
      /\ transcript_ok h')
  /\ forall h0,
      run llm repr_keys self post_content post_url
          {| history := h0; trace := trace w |}
      = run llm repr_keys self post_content post_url w.
Proof.
  split; [|reflexivity].
  rewrite run_unfold.
  edestruct (loop_invariant llm self (S (max_steps self)) 0)
    as (r & h' & evs & -> & Hevs & _ & Hok & _);
    [lia | apply seed_ok | reflexivity |].
  exists evs, h'. cbn [snd trace]. rewrite <- app_assoc.
  split; [reflexivity|]. split; [apply seed_ok|]. now split.
Qed.

(** C4.  A dispatch to a registered tool passes the input under the key
    [query] when the name is [search], under [url] when it is
    [bluesky_fetch], and under [image_url] for every other registered
    name. *)
Theorem argument_key_convention
        self (name input : str) (tool : Tool) (w : world) :
  lookup name (tools self) = Some tool ->
  (name = lit "search" ->
   dispatch self name input w = passed tool name (lit "query") input w)
  /\ (name = lit "bluesky_fetch" ->
      dispatch self name input w = passed tool name (lit "url") input w)
  /\ (name <> lit "search" -> name <> lit "bluesky_fetch" ->
      dispatch self name input w
      = passed tool name (lit "image_url") input w).
Proof.
  intros Hreg. unfold dispatch, passed. rewrite Hreg.
  assert (forall key,
             bindM (call name tool key input)
                   (fun tool_result => ret (lit "Observation: " ++ tool_result))
                   w
             = (bind (execute tool (length (trace w)) key input)
                     (fun tool_result =>
                        Ok (lit "Observation: " ++ tool_result)),
                {| history := history w;
                   trace := trace w ++ [ToolExecute name key input] |}))
    as Hcall.
  { intros key. unfold bindM. rewrite call_world.
    now destruct (execute tool (length (trace w)) key input). }
  split; [|split].
  - intros ->. apply Hcall.
  - intros ->. apply Hcall.
  - intros H1 H2. apply str_eqb_neq in H1, H2. rewrite H1, H2. apply Hcall.
Qed.

Lemma argument_key_convention_witness :
  lookup (lit "search") (tools Examples.agent)
  = Some (SearchTool Examples.no_hits)
  /\ dispatch Examples.agent (lit "search") (lit "cats") Examples.fresh
     = passed (SearchTool Examples.no_hits) (lit "search") (lit "query")
              (lit "cats") Examples.fresh.
Proof.
  split; [reflexivity|].
  apply (argument_key_convention Examples.agent (lit "search") (lit "cats")
           (SearchTool Examples.no_hits) Examples.fresh);
    reflexivity.
Defined.

(** *** Lines and markers *)

Lemma startswith_find (p s : str) : startswith p s = true -> find p s = Some 0.
Proof. intros H. destruct s; simpl; now rewrite H. Qed.

Lemma startswith_contains (p s : str) :
  startswith p s = true -> contains p s = true.
Proof. intros H. unfold contains. now rewrite (startswith_find p s H). Qed.

(** The piece that follows a leading marker, as [split] cuts it. *)
Lemma split_after_marker (marker line : str) :
  marker <> [] -> startswith marker line = true ->
  getitem (split marker line) 1 = Ok (after_marker marker line).
Proof.
  intros Hm H. unfold getitem.
  rewrite (split_1 marker line Hm (startswith_contains marker line H)).
  unfold after_first, after_marker. now rewrite (startswith_find marker line H).
Qed.

Lemma filter_first_line (marker text line : str) :
  first_line marker text line ->
  getitem (filter (startswith marker) (split nl text)) 0 = Ok line.
Proof.
  intros (before & rest & -> & Hbefore & Hline).
  rewrite filter_app. simpl. rewrite Hline.
  replace (filter (startswith marker) before) with (@nil str);
    [reflexivity|].
  symmetry. induction Hbefore as [|l before Hl _ IH]; [reflexivity|].
  simpl. now rewrite Hl.
Qed.

Lemma join_In (sep : str) (l : list str) (x : str) :
  In x l -> exists pre post, join sep l = pre ++ x ++ post.
Proof.
  induction l as [|a l IH]; [easy|]. intros [->|Hin].
  - destruct l as [|b l].
    + exists [], []. simpl. now rewrite app_nil_r.
    + exists [], (sep ++ join sep (b :: l)). reflexivity.
  - destruct (IH Hin) as (pre & post & E).
    rewrite join_cons by (intros ->; easy). rewrite E.
    exists (a ++ sep ++ pre), post. now rewrite <- !app_assoc.
Qed.

(** A text contains the marker a line of it begins with. *)
Lemma first_line_contains (marker text line : str) :
  first_line marker text line -> contains marker text = true.
Proof.
  intros (before & rest & Hsplit & _ & Hline).
  apply contains_iff.
  destruct (join_In nl (split nl text) line) as (pre & post & E).
  { rewrite Hsplit. apply in_or_app. right. now left. }
  rewrite (join_split nl text nl_not_nil) in E.
  apply startswith_inv in Hline. rewrite Hline in E.
  exists pre, (skipn (length marker) line ++ post).
  rewrite E. now rewrite <- !app_assoc.
Qed.

Lemma startswith_firstn (p s : str) (k : nat) :
  startswith p (firstn k s) = true -> startswith p s = true.
Proof.
  revert s k. induction p as [|a p IH]; intros s k; [reflexivity|].
  destruct s as [|b s]; [now rewrite firstn_nil|].
  destruct k as [|k]; [discriminate|]. simpl.
  intros H. apply andb_prop in H as [-> H]. simpl. now apply (IH s k).
Qed.

(** The text before the first occurrence has no occurrence. *)
Lemma before_first_free (sep s : str) :
  sep <> [] -> contains sep (before_first sep s) = false.
Proof.
  intros Hsep. unfold before_first.
  destruct (find sep s) as [i|] eqn:E.
  - unfold contains. destruct (find sep (firstn i s)) as [j|] eqn:Ej;
      [|reflexivity].
    exfalso. pose proof (find_bound _ _ _ Ej) as Hb.
    rewrite length_firstn in Hb.
    assert (0 < length sep) by (destruct sep; simpl; [congruence|lia]).
    apply find_Some in Ej as [Hj _]. apply find_Some in E as [_ Hmin].
    rewrite skipn_firstn_comm in Hj. apply startswith_firstn in Hj.
    rewrite Hmin in Hj; [discriminate | lia].
  - unfold contains. now rewrite E.
Qed.

(** No piece of a split has the separator in it. *)
Lemma split_pieces_free (sep s : str) :
  sep <> [] -> Forall (fun piece => contains sep piece = false) (split sep s).
Proof.
  intros Hsep.
  assert (forall n s, length s <= n ->
                      Forall (fun piece => contains sep piece = false)
                             (split sep s)) as H.
  { clear s. induction n as [|n IH]; intros s Hn;
      rewrite (split_eq sep s Hsep); destruct (find sep s) as [i|] eqn:E.
    - destruct s; [|simpl in Hn; lia]. simpl in E.
      now rewrite (startswith_nil_r sep Hsep) in E.
    - constructor; [|constructor]. unfold contains. now rewrite E.
    - constructor.
      + pose proof (before_first_free sep s Hsep) as Hf.
        unfold before_first in Hf. now rewrite E in Hf.
      + apply IH. pose proof (find_bound _ _ _ E) as Hb.
        assert (0 < length sep) by (destruct sep; simpl; [congruence|lia]).
        rewrite length_skipn. lia.
    - constructor; [|constructor]. unfold contains. now rewrite E. }
  now apply (H (length s)).
Qed.

Lemma first_line_one_line (marker text line : str) :
  first_line marker text line -> contains nl line = false.
Proof.
  intros (before & rest & Hsplit & _ & _).
  pose proof (split_pieces_free nl text nl_not_nil) as H.
  rewrite Hsplit in H. apply Forall_app in H as [_ H].
  now inversion H.
Qed.

Lemma extract_first_lines (text action_line input_line : str) :
  first_line Action text action_line ->
  first_line Action_Input text input_line ->
  extract text
  = Ok (lower (strip (after_marker Action action_line)),
        strip (after_marker Action_Input input_line)).
Proof.
  intros HA HI. unfold extract.
  rewrite (filter_first_line Action text action_line HA). cbn [bind].
  destruct HA as (_ & _ & _ & _ & HA).
  rewrite (split_after_marker Action action_line Action_not_nil HA).
  cbn [bind].
  rewrite (filter_first_line Action_Input text input_line HI). cbn [bind].
  destruct HI as (_ & _ & _ & _ & HI).
  rewrite (split_after_marker Action_Input input_line
                              Action_Input_not_nil HI).
  reflexivity.
Qed.

Lemma filter_none {A} (f : A -> bool) (l : list A) :
  Forall (fun x => f x = false) l -> filter f l = [].
Proof.
  induction 1 as [|x l Hx _ IH]; [reflexivity|]. simpl. now rewrite Hx.
Qed.

Lemma getitem_raises {A} (l : list A) (i : nat) (e : exn) :
  getitem l i = Raise e -> e = index_error.
Proof.
  unfold getitem. destruct (nth_error l i); [discriminate|].
  now intros [= <-].
Qed.

(** Without a line that begins with one of the two markers the extraction
    raises the index error, whatever else the text holds. *)
Lemma extract_without_line (text : str) :
  Forall (fun l => startswith Action l = false) (split nl text)
  \/ Forall (fun l => startswith Action_Input l = false) (split nl text) ->
  extract text = Raise index_error.
Proof.
  intros H. unfold extract.
  destruct (getitem (filter (startswith Action) (split nl text)) 0)
    as [action_line|e] eqn:EA; cbn [bind].
  - destruct (getitem (split Action action_line) 1) as [after_action|e]
      eqn:ES; cbn [bind];
      [|now rewrite (getitem_raises _ _ _ ES)].
    destruct H as [H|H].
    + now rewrite (filter_none _ _ H) in EA.
    + now rewrite (filter_none _ _ H).
  - now rewrite (getitem_raises _ _ _ EA).
Qed.

(** C5, as the code has it.  When some line of the text begins with
    [Action:] and some line begins with [Action Input:], the step extracts
    a tool call: its name is the text after the leading [Action:] of the
    first such line, up to the next [Action:] in that line if there is one,
    trimmed and lower-cased; its input is the text after the leading
    [Action Input:] of the first line that begins with it, up to the next
    [Action Input:] in that line if there is one, trimmed.  That line has no
    line feed in it, so an input that goes on over more lines is cut at the
    end of its first line.  The call is then dispatched.  A text that holds
    both markers and has no line that begins with one of them gives no tool
    call: the index error is caught, and the observation is [Observation:
    Error parsing action: list index out of range]. *)
Theorem tool_call_extraction self (text : str) (w : world) :
  (forall action_line input_line,
      first_line Action text action_line ->
      first_line Action_Input text input_line ->
      extract text
      = Ok (lower (strip (after_marker Action action_line)),
            strip (after_marker Action_Input input_line))
      /\ contains nl input_line = false
      /\ observe self text w
         = try_M (dispatch self
                           (lower (strip (after_marker Action action_line)))
                           (strip (after_marker Action_Input input_line)))
                 (fun e => ret (error_observation e)) w)
  /\ (contains Action text = true ->
      contains Action_Input text = true ->
      Forall (fun l => startswith Action l = false) (split nl text)
      \/ Forall (fun l => startswith Action_Input l = false)
                (split nl text) ->
      extract text = Raise index_error
      /\ observe self text w
         = (Ok (lit "Observation: Error parsing action: list index out of range"),
            w)).
Proof.
  split.
  - intros action_line input_line HA HI.
    pose proof (extract_first_lines text action_line input_line HA HI) as E.
    split; [exact E|]. split.
    + exact (first_line_one_line Action_Input text input_line HI).
    + unfold observe.
      rewrite (first_line_contains Action text action_line HA).
      rewrite (first_line_contains Action_Input text input_line HI).
      cbn [andb]. unfold try_M, bindM, lift. rewrite E. reflexivity.
  - intros HA HI Hnone.
    pose proof (extract_without_line text Hnone) as E.
    split; [exact E|].
    unfold observe. rewrite HA, HI. cbn [andb].
    unfold try_M, bindM, lift. rewrite E. reflexivity.
Qed.

Lemma tool_call_extraction_witness :
  (first_line Action Examples.search_cats (lit "Action: Search")
   /\ first_line Action_Input Examples.search_cats
                 (lit "Action Input: cats in hats")
   /\ extract Examples.search_cats = Ok (lit "search", lit "cats in hats"))
  /\ (contains Action Examples.inline_input = true
      /\ contains Action_Input Examples.inline_input = true
      /\ observe Examples.agent Examples.inline_input Examples.fresh
         = (Ok (lit "Observation: Error parsing action: list index out of range"),
            Examples.fresh)).
Proof.
  assert (first_line Action Examples.search_cats (lit "Action: Search"))
    as HA.
  { exists [lit "Thought: I need to look this up."],
      [lit "Action Input: cats in hats"; lit "and more"].
    split; [reflexivity|]. split; [|reflexivity].
    constructor; [reflexivity | constructor]. }
  assert (first_line Action_Input Examples.search_cats
                     (lit "Action Input: cats in hats")) as HI.
  { exists [lit "Thought: I need to look this up."; lit "Action: Search"],
      [lit "and more"].
    split; [reflexivity|]. split; [|reflexivity].
    constructor; [reflexivity|]. constructor; [reflexivity | constructor]. }
  split.
  - split; [exact HA|]. split; [exact HI|].
    exact (proj1 (proj1 (tool_call_extraction
                           Examples.agent Examples.search_cats
                           Examples.fresh)
                        (lit "Action: Search")
                        (lit "Action Input: cats in hats") HA HI)).
  - split; [reflexivity|]. split; [reflexivity|].
    apply (proj2 (tool_call_extraction
                    Examples.agent Examples.inline_input Examples.fresh)).
    + reflexivity.
    + reflexivity.
    + right. constructor; [reflexivity | constructor].
Defined.

(** C5 as stated fails.  A text can hold both markers, and no final answer,
    without a line that begins with [Action:]; then no tool call is
    extracted, and the step observes the error.  And where the line of the
    action holds the marker again, the name is not the rest of the line
    but the text up to the marker. *)
Lemma markers_without_action_line :
  contains Action Examples.inline_action = true
  /\ contains Action_Input Examples.inline_action = true
  /\ contains Final_Answer Examples.inline_action = false
  /\ extract Examples.inline_action
     = Raise (Exn IndexError (lit "list index out of range"))
  /\ observe Examples.agent Examples.inline_action Examples.fresh
     = (Ok (lit "Observation: Error parsing action: list index out of range"),
        Examples.fresh)
  /\ extract Examples.action_twice = Ok (lit "a", lit "c")
  /\ lower (strip (skipn (length Action) (lit "Action: a Action: b")))
     = lit "a action: b".
Proof.
  repeat split; vm_compute; reflexivity.
Qed.

(** *** Failures inside a step *)

(** What the extraction or the tool raises is caught in the step. *)
Lemma observe_caught self (text : str) (w : world) (e : exn) :
  contains Action text = true -> contains Action_Input text = true ->
  (extract text = Raise e
   \/ exists name input,
       extract text = Ok (name, input)
       /\ fst (dispatch self name input w) = Raise e) ->
  exists evs,
    observe self text w
    = (Ok (error_observation e),
       {| history := history w; trace := trace w ++ evs |}).
Proof.
  intros HA HI Hfail. unfold observe. rewrite HA, HI. cbn [andb].
  unfold try_M, bindM, lift.
  destruct Hfail as [E | (name & input & E & Hd)]; rewrite E.
  - exists []. unfold ret. now rewrite world_eta.
  - destruct (dispatch_world self name input w) as (r & evs & D & _).
    rewrite D in Hd |- *. cbn [fst] in Hd. subst r.
    now exists evs.
Qed.

Lemma observe_instructive self (text : str) (w : world) :
  contains Action text && contains Action_Input text = false ->
  observe self text w = (Ok instructive, w).
Proof. intros H. unfold observe. now rewrite H. Qed.

Lemma observe_not_found self (text name input : str) (w : world) :
  contains Action text = true -> contains Action_Input text = true ->
  extract text = Ok (name, input) ->
  lookup name (tools self) = None ->
  observe self text w = (Ok (not_found_observation name), w).
Proof.
  intros HA HI E Hreg. unfold observe. rewrite HA, HI. cbn [andb].
  unfold try_M, bindM, lift. rewrite E. unfold dispatch. now rewrite Hreg.
Qed.

Lemma not_found_indication (name : str) :
  contains (lit "not found") (not_found_observation name) = true.
Proof.
  apply contains_iff.
  exists (lit "Observation: Error: Tool '" ++ name ++ lit "' "), (lit ".").
  unfold not_found_observation. rewrite <- !app_assoc. reflexivity.
Qed.

(** C6.  Whatever the extraction of the action or the tool raises in a
    step is caught there: the observation is [Observation: Error parsing
    action: ] followed by the description of the exception; it is appended
    to the history as a user turn, after the assistant turn, and the loop
    goes on, so that with a step left the model is called next on the
    history that ends in this observation, and with none left the
    exhaustion message is returned.  So a run ends abnormally only when the
    model call itself raises: when the model always answers, the run
    returns an answer, whatever the tools do. *)
Theorem failures_become_observations llm repr_keys self :
  (forall fuel n w raw e,
      n < max_steps self ->
      llm (length (trace w)) (model_name self) (history w) = Ok raw ->
      contains Final_Answer (strip raw) = false ->
      contains Action (strip raw) = true ->
      contains Action_Input (strip raw) = true ->
      (extract (strip raw) = Raise e
       \/ exists name input,
           extract (strip raw) = Ok (name, input)
           /\ fst (dispatch self name input
                            (answered (model_name self) w (strip raw)))
              = Raise e) ->
      exists evs,
        step_observed llm self fuel n w (strip raw) evs
                      (lit "Observation: Error parsing action: " ++ msg e)
        /\ while_loop llm self (S fuel) n w
           = while_loop llm self fuel (S n)
               (observed (model_name self) w (strip raw) evs
                         (error_observation e)))
  /\ (forall post_content post_url w,
         (forall now m h e, llm now m h <> Raise e) ->
         exists answer,
           fst (run llm repr_keys self post_content post_url w)
           = Ok (Some answer)).
Proof.
  split.
  - intros fuel n w raw e Hn E F HA HI Hfail.
    destruct (observe_caught self (strip raw)
                (answered (model_name self) w (strip raw)) e HA HI Hfail)
      as (evs & O).
    exists evs. split.
    + exact (loop_step_observed llm self fuel n w raw (error_observation e)
                                evs Hn E F O).
    + now apply loop_continue.
  - intros post_content post_url w Hllm. rewrite run_unfold.
    edestruct (loop_invariant llm self (S (max_steps self)) 0)
      as (r & h' & evs & -> & _ & _ & _ & Hr);
      [lia | apply seed_ok | reflexivity |].
    cbn [fst]. destruct r as [[answer|]|e].
    + now exists answer.
    + contradiction.
    + destruct Hr as (now & m & h & Hr). now apply Hllm in Hr.
Qed.

Lemma failures_become_observations_witness :
  (exists evs,
      step_observed (Examples.always Examples.inline_action) Examples.agent
                    5 0 Examples.fresh Examples.inline_action evs
                    (lit "Observation: Error parsing action: list index out of range"))
  /\ (exists evs,
         step_observed (Examples.always Examples.search_cats)
                       Examples.broken_agent 5 0 Examples.fresh
                       Examples.search_cats evs
                       (lit "Observation: Error parsing action: Connection error."))
  /\ exists answer,
      fst (run (Examples.always Examples.search_cats) Examples.repr_keys
               Examples.broken_agent [] [] Examples.fresh)
      = Ok (Some answer).
Proof.
  split; [|split].
  - destruct (proj1 (failures_become_observations
                       (Examples.always Examples.inline_action)
                       Examples.repr_keys Examples.agent)
                    5 0 Examples.fresh Examples.inline_action
                    (Exn IndexError (lit "list index out of range")))
      as (evs & H & _).
    + simpl. lia.
    + reflexivity.
    + reflexivity.
    + reflexivity.
    + reflexivity.
    + left. reflexivity.
    + exists evs. exact H.
  - destruct (proj1 (failures_become_observations
                       (Examples.always Examples.search_cats)
                       Examples.repr_keys Examples.broken_agent)
                    5 0 Examples.fresh Examples.search_cats
                    Examples.unreachable)
      as (evs & H & _).
    + simpl. lia.
    + reflexivity.
    + reflexivity.
    + reflexivity.
    + reflexivity.
    + right. exists (lit "search"), (lit "cats in hats").
      split; reflexivity.
    + exists evs. exact H.
  - apply (proj2 (failures_become_observations
                    (Examples.always Examples.search_cats)
                    Examples.repr_keys Examples.broken_agent)).
    intros now m h e. discriminate.
Defined.

(** C7.  A step whose text has no final answer and gives no call of a
    registered tool is recovered in the loop.  When the text does not hold
    both [Action:] and [Action Input:], the observation is the fixed
    instruction to give an action with its input or a final answer.  When
    the extracted tool name is not in the registry, the observation says
    that the tool was not found.  Either way no tool is called in the step,
    the observation is appended to the history as a user turn, after the
    assistant turn, and the loop goes on: with a step left the model is
    called next on the history that ends in the observation, and with none
    left the exhaustion message is returned. *)
Theorem unusable_output_recovered
        llm self (fuel n : nat) (w : world) (raw : str) :
  n < max_steps self ->
  llm (length (trace w)) (model_name self) (history w) = Ok raw ->
  contains Final_Answer (strip raw) = false ->
  (contains Action (strip raw) && contains Action_Input (strip raw) = false ->
   step_observed llm self fuel n w (strip raw) []
                 (lit "Observation: I need to specify an Action and Action Input to use a tool, or provide a Final Answer.")
   /\ while_loop llm self (S fuel) n w
      = while_loop llm self fuel (S n)
          (observed (model_name self) w (strip raw) [] instructive))
  /\ (forall name input,
         contains Action (strip raw) = true ->
         contains Action_Input (strip raw) = true ->
         extract (strip raw) = Ok (name, input) ->
         lookup name (tools self) = None ->
         step_observed llm self fuel n w (strip raw) []
                       (lit "Observation: Error: Tool '" ++ name
                            ++ lit "' not found.")
         /\ while_loop llm self (S fuel) n w
            = while_loop llm self fuel (S n)
                (observed (model_name self) w (strip raw) []
                          (not_found_observation name))
         /\ contains (lit "not found")
                     (lit "Observation: Error: Tool '" ++ name
                          ++ lit "' not found.") = true).
Proof.
  intros Hn E F. split.
  - intros H.
    assert (observe self (strip raw)
                    (answered (model_name self) w (strip raw))
            = (Ok instructive,
               {| history := history (answered (model_name self) w
                                               (strip raw));
                  trace := trace (answered (model_name self) w (strip raw))
                           ++ [] |})) as O.
    { rewrite (observe_instructive self _ _ H). now rewrite world_eta. }
    split.
    + exact (loop_step_observed llm self fuel n w raw instructive [] Hn E F
                                O).
    + now apply loop_continue.
  - intros name input HA HI Hex Hreg.
    assert (observe self (strip raw)
                    (answered (model_name self) w (strip raw))
            = (Ok (not_found_observation name),
               {| history := history (answered (model_name self) w
                                               (strip raw));
                  trace := trace (answered (model_name self) w (strip raw))
                           ++ [] |})) as O.
    { rewrite (observe_not_found self _ name input _ HA HI Hex Hreg).
      now rewrite world_eta. }
    split; [|split].
    + exact (loop_step_observed llm self fuel n w raw
                                (not_found_observation name) [] Hn E F O).
    + now apply loop_continue.
    + apply not_found_indication.
Qed.

Lemma unusable_output_recovered_witness :
  step_observed (Examples.always Examples.thinking) Examples.agent 5 0
                Examples.fresh Examples.thinking []
                (lit "Observation: I need to specify an Action and Action Input to use a tool, or provide a Final Answer.")
  /\ step_observed (Examples.always Examples.ask_oracle) Examples.agent 5 0
                   Examples.fresh Examples.ask_oracle []
                   (lit "Observation: Error: Tool 'oracle' not found.").
Proof.
  split.
  - apply (unusable_output_recovered
             (Examples.always Examples.thinking) Examples.agent 5 0
             Examples.fresh Examples.thinking); [simpl; lia | reflexivity..].
  - apply (unusable_output_recovered
             (Examples.always Examples.ask_oracle) Examples.agent 5 0
             Examples.fresh Examples.ask_oracle)
      with (name := lit "oracle") (input := lit "why");
      [simpl; lia | reflexivity..].
Defined.

(* ===================================================================== *)
(** ** The harness and the post tool *)
(* ===================================================================== *)

(** C8, as the code has it.  The score of a judging is what [json.loads]
    makes of the judge's reply, as it is: nothing checks the ratings.  When
    the judge call or the decoding raises, the score is the fixed one, with
    factuality 0, utility 0 and the reasoning [Error in judging.], which is
    not a score with ratings from 1 to 5. *)
Theorem judge_score_unchecked
        judge json_loads (original_post gold_standard agent_output : str)
        (w : world) :
  Harness._judge_output judge json_loads
                        original_post gold_standard agent_output w
  = (Ok (match bind (judge (length (trace w))
                           (judge_messages original_post gold_standard
                                           agent_output))
                    json_loads with
         | Ok score => score
         | Raise _ => Harness.judging_error
         end),
     {| history := history w;
        trace := trace w
                 ++ [JudgeCompletion
                       (judge_messages original_post gold_standard
                                       agent_output)] |})
  /\ Harness.subscript Harness.judging_error (lit "factuality")
     = Ok (Harness.JInt 0)
  /\ Harness.subscript Harness.judging_error (lit "utility")
     = Ok (Harness.JInt 0)
  /\ JudgeScore_ok Harness.judging_error = false.
Proof.
  split; [|repeat split].
  unfold Harness._judge_output, try_M, bindM, Harness.judge_chat, lift.
  fold (judge_messages original_post gold_standard agent_output).
  destruct (judge (length (trace w))
                  (judge_messages original_post gold_standard agent_output))
    as [reply|e]; cbn [bind]; [|reflexivity].
  now destruct (json_loads reply).
Qed.

(** C8 as stated fails: when the judge is out of reach the score has the
    ratings 0. *)
Lemma judging_error_out_of_range :
  fst (Harness._judge_output Examples.no_judge Examples.no_json
                             (lit "lol this is peak") (lit "slang") (lit "*")
                             Examples.fresh)
  = Ok Harness.judging_error
  /\ Harness.subscript Harness.judging_error (lit "factuality")
     = Ok (Harness.JInt 0)
  /\ JudgeScore_ok Harness.judging_error = false.
Proof. repeat split. Qed.

(** *** The averages *)

Lemma sum_scores_raises (key : str) (rs : list Harness.Result) :
  forall total e,
    Harness.sum_scores key total rs = Raise e ->
    kind e <> ZeroDivisionError.
Proof.
  induction rs as [|r rs IH]; intros total e; simpl; [discriminate|].
  destruct (Harness.subscript (Harness.scores r) key) as [v|e1] eqn:Es;
    cbn [bind].
  - destruct (Harness.add total v) as [total'|e2] eqn:Ea; cbn [bind].
    + apply IH.
    + intros [= <-]. destruct v; simpl in Ea; try discriminate;
        injection Ea as <-; discriminate.
  - intros [= <-]. unfold Harness.subscript in Es.
    destruct (Harness.scores r); try (injection Es as <-; discriminate).
    destruct (Harness.dict_get d key); [discriminate|].
    injection Es as <-. discriminate.
Qed.

(** C10.  The averages of a model divide by the number of results with no
    guard: with no case there is no result, and computing the averages
    raises [ZeroDivisionError]; so does [run_benchmark] for every list of
    models that is not empty, the default one among them.  With a result at
    hand the division itself is defined: whatever the averages raise then,
    it is not [ZeroDivisionError]. *)
Theorem empty_cases_divide_by_zero
        llm repr_keys ddgs_text vision_completions resolve_handle
        get_post_thread judge json_loads (models : list str) (w : world) :
  models <> [] ->
  fst (Harness.run_benchmark llm repr_keys ddgs_text vision_completions
                             resolve_handle get_post_thread judge json_loads
                             [] models w)
  = Raise division_by_zero
  /\ Harness.averages [] = Raise division_by_zero
  /\ forall model_results e,
      model_results <> [] ->
      Harness.averages model_results = Raise e ->
      kind e <> ZeroDivisionError.
Proof.
  intros Hmodels. split; [|split].
  - destruct models as [|model rest]; [congruence | reflexivity].
  - reflexivity.
  - intros rs e Hrs. unfold Harness.averages.
    destruct (Harness.sum_scores (lit "factuality") 0 rs) as [fact|e1] eqn:E1;
      cbn [bind].
    + destruct rs as [|r rs]; [congruence|]. cbn [length Harness.truediv bind].
      destruct (Harness.sum_scores (lit "utility") 0 (r :: rs))
        as [util|e2] eqn:E2; cbn [bind]; [discriminate|].
      intros [= <-]. exact (sum_scores_raises _ _ _ _ E2).
    + intros [= <-]. exact (sum_scores_raises _ _ _ _ E1).
Qed.

Lemma empty_cases_divide_by_zero_witness :
  Harness.default_models <> []
  /\ fst (Harness.run_benchmark
            (Examples.always Examples.thinking) Examples.repr_keys
            Examples.no_hits Examples.no_vision Examples.no_handle
            Examples.no_thread Examples.no_judge Examples.no_json
            [] Harness.default_models Examples.fresh)
     = Raise division_by_zero.
Proof.
  split; [discriminate|].
  apply (empty_cases_divide_by_zero
           (Examples.always Examples.thinking) Examples.repr_keys
           Examples.no_hits Examples.no_vision Examples.no_handle
           Examples.no_thread Examples.no_judge Examples.no_json
           Harness.default_models Examples.fresh).
  discriminate.
Defined.

(** *** The post URL *)

Lemma before_first_cons (sub : str) (x : ascii) (s : str) :
  before_first sub (x :: s)
  = if startswith sub (x :: s) then [] else x :: before_first sub s.
Proof.
  unfold before_first. cbn [find].
  destruct (startswith sub (x :: s)); [reflexivity|].
  now destruct (find sub s).
Qed.

Lemma before_first_nil (sub : str) : before_first sub [] = [].
Proof.
  unfold before_first. simpl. now destruct (startswith sub []).
Qed.

(** Cutting at a marker first does not move the first occurrence of the
    character the marker begins with. *)
Lemma before_first_char (c : ascii) (rest s : str) :
  before_first [c] (before_first (c :: rest) s) = before_first [c] s.
Proof.
  induction s as [|x s IH]; [now rewrite !before_first_nil|].
  rewrite (before_first_cons (c :: rest)).
  destruct (startswith (c :: rest) (x :: s)) eqn:E.
  - rewrite before_first_nil, before_first_cons.
    cbn [startswith] in E |- *. apply andb_prop in E as [-> _]. reflexivity.
  - rewrite !(before_first_cons [c]). cbn [startswith].
    destruct (Ascii.eqb c x); [reflexivity|]. cbn [andb]. now rewrite IH.
Qed.

Lemma profile_segment_without_marker (url : str) :
  contains profile_marker url = false ->
  contains post_marker (profile_segment url) = false.
Proof.
  unfold contains at 1, profile_segment, after_first.
  destruct (find profile_marker url); [discriminate|].
  now rewrite before_first_nil.
Qed.

(** Lines 93-95 on a URL that has the profile marker. *)
Lemma parse_url_segment (url : str) :
  contains profile_marker url = true ->
  parse_url url
  = if contains post_marker (profile_segment url)
    then Ok (before_first post_marker (profile_segment url),
             before_first slash (after_first post_marker (profile_segment url)))
    else Raise index_error.
Proof.
  intros H. unfold parse_url.
  fold profile_marker post_marker slash. unfold getitem at 1.
  rewrite (split_1 profile_marker url); [|discriminate | exact H].
  fold (profile_segment url). cbn [bind]. unfold getitem at 1.
  rewrite (split_0 post_marker (profile_segment url)) by discriminate.
  cbn [bind]. unfold getitem at 1.
  destruct (contains post_marker (profile_segment url)) eqn:E.
  - rewrite (split_1 post_marker (profile_segment url)); [|discriminate|exact E].
    cbn [bind]. unfold getitem.
    rewrite (split_0 slash) by discriminate. cbn [bind].
    change slash with ["/"%char].
    change post_marker with ("/"%char :: lit "post/").
    now rewrite before_first_char.
  - rewrite (split_1_none post_marker (profile_segment url));
      [reflexivity | discriminate | exact E].
Qed.

Lemma fetch_error_not_invalid (d : str) :
  lit "Error fetching Bluesky post: " ++ d <> invalid_url.
Proof. discriminate. Qed.

(** C9, as the code has it.  [execute] returns the format error exactly
    when the URL lacks [bsky.app/profile/] or lacks [/post/].  The handle
    and the record key are looked for in the text after the first
    [bsky.app/profile/], up to the next [bsky.app/profile/] if there is
    one: when that text holds [/post/], the handle is what comes before its
    first [/post/] and the record key is the first path segment after it;
    when it does not, no handle is taken, the index error is caught and
    [execute] returns the fetch error that describes it. *)
Theorem bluesky_url_format
        resolve_handle get_post_thread (now : nat) (url : str) :
  (BlueskyTool_execute resolve_handle get_post_thread now url = invalid_url
   <-> contains profile_marker url = false
       \/ contains post_marker url = false)
  /\ (contains post_marker (profile_segment url) = true ->
      parse_url url
      = Ok (before_first post_marker (profile_segment url),
            before_first slash
                         (after_first post_marker (profile_segment url))))
  /\ (contains profile_marker url = true ->
      contains post_marker url = true ->
      contains post_marker (profile_segment url) = false ->
      parse_url url = Raise index_error
      /\ BlueskyTool_execute resolve_handle get_post_thread now url
         = lit "Error fetching Bluesky post: list index out of range").
Proof.
  split; [|split].
  - unfold BlueskyTool_execute. fold profile_marker post_marker invalid_url.
    destruct (contains profile_marker url) eqn:EP;
      [|split; [now left | reflexivity]].
    destruct (contains post_marker url) eqn:EQ;
      [|split; [now right | reflexivity]].
    cbn [negb orb]. split; [|intros [H|H]; discriminate].
    unfold try_except.
    destruct (parse_url url) as [[handle rkey]|e]; cbn [bind];
      [|intros H; now apply fetch_error_not_invalid in H].
    destruct (resolve_handle now handle) as [did|e]; cbn [bind];
      [|intros H; now apply fetch_error_not_invalid in H].
    destruct (get_post_thread now _) as [[post|]|e]; cbn [bind];
      [discriminate | discriminate |].
    intros H; now apply fetch_error_not_invalid in H.
  - intros E. destruct (contains profile_marker url) eqn:EP.
    + rewrite (parse_url_segment url EP). now rewrite E.
    + now rewrite (profile_segment_without_marker url EP) in E.
  - intros EP EQ E. assert (parse_url url = Raise index_error) as Hp.
    { rewrite (parse_url_segment url EP). now rewrite E. }
    split; [exact Hp|].
    unfold BlueskyTool_execute. fold profile_marker post_marker.
    rewrite EP, EQ. cbn [negb orb]. now rewrite Hp.
Qed.

Lemma bluesky_url_format_witness :
  contains post_marker (profile_segment Examples.alice_post) = true
  /\ parse_url Examples.alice_post
     = Ok (lit "alice.bsky.social", lit "abc123").
Proof.
  split; [reflexivity|].
  exact (proj1 (proj2 (bluesky_url_format
                         Examples.no_handle Examples.no_thread 0
                         Examples.alice_post))
               eq_refl).
Defined.

(** C9 as stated fails: a URL with both markers passes the format check,
    and yet no handle and no record key are taken from it, where the text
    between the first [bsky.app/profile/] and the [/post/] that follows is
    [a/bsky.app/profile/b], or where [/post/] only comes before the other
    marker. *)
Lemma markers_without_handle :
  contains profile_marker Examples.two_profiles = true
  /\ contains post_marker Examples.two_profiles = true
  /\ parse_url Examples.two_profiles = Raise index_error
  /\ BlueskyTool_execute Examples.no_handle Examples.no_thread 0
                         Examples.two_profiles
     = lit "Error fetching Bluesky post: list index out of range"
  /\ contains profile_marker Examples.post_before_profile = true
  /\ contains post_marker Examples.post_before_profile = true
  /\ parse_url Examples.post_before_profile = Raise index_error.
Proof. repeat split. Qed.

(* ===================================================================== *)
(** ** More about the tools *)
(* ===================================================================== *)

(** X1.  The search tool answers [No results found.] exactly when the
    backend returned no hit.  Hits give their blocks, joined by an empty
    line, so a text that begins with [Title: ]; a failure of the backend
    gives [Error performing search: ] followed by its description. *)
Theorem search_no_results_iff ddgs_text (now : nat) (query : str) (n : nat) :
  (SearchTool_execute ddgs_text now query n = lit "No results found."
   <-> ddgs_text now query n = Ok [])
  /\ (forall r results,
         ddgs_text now query n = Ok (r :: results) ->
         SearchTool_execute ddgs_text now query n
         = join (nl ++ nl) (map result_block (r :: results))
         /\ startswith (lit "Title: ")
                       (SearchTool_execute ddgs_text now query n) = true)
  /\ (forall e,
         ddgs_text now query n = Raise e ->
         SearchTool_execute ddgs_text now query n
         = lit "Error performing search: " ++ msg e).
Proof.
  unfold SearchTool_execute, try_except. split; [|split].
  - destruct (ddgs_text now query n) as [[|r [|r' results]]|e];
      cbn [bind map]; split; try reflexivity; try discriminate.
  - intros r results ->. cbn [bind]. split; [reflexivity|].
    destruct results; reflexivity.
  - intros e ->. reflexivity.
Qed.

Lemma search_no_results_iff_witness :
  SearchTool_execute Examples.one_hit 0 (lit "peak") 5
  = lit "Title: Peak" ++ nl ++ lit "URL: https://x" ++ nl
        ++ lit "Snippet: slang".
Proof.
  exact (proj1 (proj1 (proj2 (search_no_results_iff
                                Examples.one_hit 0 (lit "peak") 5))
                      {| title := lit "Peak"; href := lit "https://x";
                         body := lit "slang" |}
                      [] eq_refl)).
Defined.

(** X2.  With the registry of [get_tools], the key the loop picks is the
    keyword the tool takes: a dispatch to any registered name does not
    raise, calls the tool once, and gives an observation that is
    [Observation: ] followed by the tool's text. *)
Theorem registered_tools_accept_their_key
        ddgs_text vision_completions resolve_handle get_post_thread
        self (name input : str) (tool : Tool) (w : world) :
  tools self = get_tools ddgs_text vision_completions resolve_handle
                         get_post_thread ->
  lookup name (tools self) = Some tool ->
  exists key tool_result,
    execute tool (length (trace w)) key input = Ok tool_result
    /\ dispatch self name input w
       = (Ok (lit "Observation: " ++ tool_result),
          {| history := history w;
             trace := trace w ++ [ToolExecute name key input] |}).
Proof.
  intros Htools Hreg. unfold dispatch. rewrite Hreg.
  rewrite Htools in Hreg. unfold get_tools in Hreg. cbn [lookup] in Hreg.
  destruct (str_eqb name (lit "search")) eqn:E1.
  - injection Hreg as <-.
    exists (lit "query"),
      (SearchTool_execute ddgs_text (length (trace w)) input 5).
    split; reflexivity.
  - destruct (str_eqb name (lit "vision")) eqn:E2.
    + injection Hreg as <-. apply str_eqb_eq in E2. subst name.
      exists (lit "image_url"),
        (VisionTool_execute vision_completions (length (trace w)) input).
      split; reflexivity.
    + destruct (str_eqb name (lit "bluesky_fetch")) eqn:E3; [|discriminate].
      injection Hreg as <-.
      exists (lit "url"),
        (BlueskyTool_execute resolve_handle get_post_thread
                             (length (trace w)) input).
      split; reflexivity.
Qed.

Lemma registered_tools_accept_their_key_witness :
  exists key tool_result,
    execute (BlueskyTool Examples.no_handle Examples.no_thread) 0 key
            Examples.alice_post
    = Ok tool_result
    /\ dispatch Examples.agent (lit "bluesky_fetch") Examples.alice_post
                Examples.fresh
       = (Ok (lit "Observation: " ++ tool_result),
          {| history := [];
             trace := [ToolExecute (lit "bluesky_fetch") key
                                   Examples.alice_post] |}).
Proof.
  exact (registered_tools_accept_their_key
           Examples.no_hits Examples.no_vision Examples.no_handle
           Examples.no_thread Examples.agent (lit "bluesky_fetch")
           Examples.alice_post
           (BlueskyTool Examples.no_handle Examples.no_thread)
           Examples.fresh eq_refl eq_refl).
Defined.

(* ===================================================================== *)
(** ** More about the loop *)
(* ===================================================================== *)

(** *** Trimming *)

Lemma lstrip_idem (s : str) : lstrip (lstrip s) = lstrip s.
Proof.
  induction s as [|c s IH]; [reflexivity|]. simpl.
  destruct (isspace c) eqn:E; [exact IH|]. simpl. now rewrite E.
Qed.

Lemma lstrip_head (s : str) (c : ascii) (t : str) :
  lstrip s = c :: t -> isspace c = false.
Proof.
  induction s as [|x s IH]; simpl; [discriminate|].
  destruct (isspace x) eqn:E; [exact IH|]. now intros [= <- _].
Qed.

Lemma lstrip_snoc (u : str) (c : ascii) :
  isspace c = false -> lstrip (u ++ [c]) = lstrip u ++ [c].
Proof.
  intros Hc. induction u as [|x u IH]; simpl; [now rewrite Hc|].
  now destruct (isspace x).
Qed.

Lemma rstrip_idem (s : str) : rstrip (rstrip s) = rstrip s.
Proof. unfold rstrip. now rewrite rev_involutive, lstrip_idem. Qed.

Lemma strip_idem (s : str) : strip (strip s) = strip s.
Proof.
  unfold strip. destruct (lstrip s) as [|c t] eqn:E; [reflexivity|].
  pose proof (lstrip_head s c t E) as Hc.
  assert (rstrip (c :: t) = c :: rstrip t) as Hr.
  { unfold rstrip. simpl. rewrite (lstrip_snoc (rev t) c Hc).
    now rewrite rev_app_distr. }
  rewrite Hr. simpl. rewrite Hc. rewrite <- Hr. apply rstrip_idem.
Qed.

(** *** Observations *)

Lemma observations_prefixed_snoc (h : list turn) (t : turn) :
  observations_prefixed h ->
  (role t = lit "user" ->
   startswith (lit "Observation: ") (content t) = true) ->
  observations_prefixed (h ++ [t]).
Proof.
  intros Hh Ht i t' Hi Hge Hrole.
  destruct (lt_dec i (length h)) as [Hlt|Hnlt].
  - rewrite nth_error_app1 in Hi by exact Hlt. now apply (Hh i).
  - rewrite nth_error_app2 in Hi by lia.
    destruct (i - length h) as [|k]; simpl in Hi.
    + injection Hi as <-. now apply Ht.
    + now destruct k.
Qed.

Lemma observe_shape self (text : str) (w : world) :
  exists observation evs,
    observe self text w
    = (Ok observation, {| history := history w; trace := trace w ++ evs |})
    /\ tool_calls evs <= 1
    /\ invocations evs = 0
    /\ startswith (lit "Observation: ") observation = true.
Proof.
  unfold observe.
  destruct (contains Action text && contains Action_Input text).
  - unfold try_M, bindM, lift.
    destruct (extract text) as [[name input]|e].
    + unfold dispatch. destruct (lookup name (tools self)) as [tool|].
      * assert (exists key,
                   (if str_eqb name (lit "search")
                    then call name tool (lit "query") input
                    else if str_eqb name (lit "bluesky_fetch")
                         then call name tool (lit "url") input
                         else call name tool (lit "image_url") input)
                   = call name tool key input) as [key ->].
        { destruct (str_eqb name (lit "search")); [now eexists|].
          destruct (str_eqb name (lit "bluesky_fetch")); now eexists. }
        unfold bindM. rewrite call_world.
        destruct (execute tool (length (trace w)) key input) as [r|e].
        -- exists (lit "Observation: " ++ r), [ToolExecute name key input].
           split; [reflexivity|]. split; [simpl; lia|].
           split; [reflexivity | apply startswith_app].
        -- exists (error_observation e), [ToolExecute name key input].
           split; [reflexivity|]. split; [simpl; lia|].
           split; reflexivity.
      * exists (not_found_observation name), []. unfold ret.
        rewrite world_eta. split; [reflexivity|]. split; [simpl; lia|].
        split; reflexivity.
    + exists (error_observation e), []. unfold ret. rewrite world_eta.
      split; [reflexivity|]. split; [simpl; lia|]. split; reflexivity.
  - exists instructive, []. unfold ret. rewrite world_eta.
    split; [reflexivity|]. split; [simpl; lia|]. split; reflexivity.
Qed.

(** Whatever the fuel: a run of the loop calls a tool at most once for each
    call of the model, keeps the observations prefixed, and returns a
    trimmed text. *)
Lemma loop_observations llm self (fuel : nat) :
  forall n w,
    observations_prefixed (history w) ->
    exists r h' evs,
      while_loop llm self fuel n w
      = (r, {| history := h'; trace := trace w ++ evs |})
      /\ tool_calls evs <= invocations evs
      /\ observations_prefixed h'
      /\ forall answer, r = Ok (Some answer) -> strip answer = answer.
Proof.
  induction fuel as [|fuel IH]; intros n w Hw.
  - exists (Ok None), (history w), []. cbn [while_loop]. unfold ret.
    rewrite world_eta. split; [reflexivity|]. split; [simpl; lia|].
    split; [exact Hw | discriminate].
  - destruct (lt_dec n (max_steps self)) as [Hn|Hn].
    + destruct (llm (length (trace w)) (model_name self) (history w))
        as [raw|e] eqn:E.
      * assert (observations_prefixed
                  (history (answered (model_name self) w (strip raw))))
          as Hans.
        { apply observations_prefixed_snoc; [exact Hw | discriminate]. }
        destruct (contains Final_Answer (strip raw)) eqn:F.
        -- rewrite (loop_final llm self fuel n w raw Hn E F).
           exists (Ok (Some (strip (before_first Final_Answer
                                      (after_first Final_Answer
                                                   (strip raw)))))),
             (history (answered (model_name self) w (strip raw))),
             [ChatCompletion (model_name self) (history w);
              HistorySet (history (answered (model_name self) w
                                            (strip raw)))].
           split; [reflexivity|]. split; [simpl; lia|].
           split; [exact Hans|]. intros answer [= <-]. apply strip_idem.
        -- destruct (observe_shape self (strip raw)
                       (answered (model_name self) w (strip raw)))
             as (obs & evs & O & Htc & Hinv & Hpre).
           rewrite (loop_continue llm self fuel n w raw obs evs Hn E F O).
           destruct (IH (S n)
                        (observed (model_name self) w (strip raw) evs obs))
             as (r & h' & evs' & -> & H1 & H2 & H3).
           { cbn [observed history].
             apply observations_prefixed_snoc; [exact Hans|].
             intros _. exact Hpre. }
           exists r, h',
             ([ChatCompletion (model_name self) (history w);
               HistorySet (history (answered (model_name self) w
                                             (strip raw)))]
                ++ evs
                ++ [HistorySet
                      (history (observed (model_name self) w (strip raw)
                                         evs obs))]
                ++ evs').
           split.
           { cbn [observed answered history trace].
             now rewrite <- !app_assoc. }
           split; [|now split].
           rewrite !tool_calls_app, !invocations_app, Hinv. simpl. lia.
      * rewrite (loop_raise llm self fuel n w e Hn E).
        exists (Raise e), (history w),
          [ChatCompletion (model_name self) (history w)].
        split; [reflexivity|]. split; [simpl; lia|].
        split; [exact Hw | discriminate].
    + rewrite loop_done by lia.
      exists (Ok (Some exhausted)), (history w), []. rewrite world_eta.
      split; [reflexivity|]. split; [simpl; lia|]. split; [exact Hw|].
      intros answer [= <-]. reflexivity.
Qed.

Lemma seed_prefixed repr_keys self post_content post_url :
  observations_prefixed (seed repr_keys self post_content post_url).
Proof.
  intros [|[|[|i]]] t Hi Hge; try lia; simpl in Hi; discriminate.
Qed.

(** X3.  A run calls a tool at most once for each call of the model, so at
    most [max_steps] times. *)
Theorem one_tool_call_per_step
        llm repr_keys self post_content post_url (w : world) :
  exists evs,
    trace (snd (run llm repr_keys self post_content post_url w))
    = trace w ++ evs
    /\ tool_calls evs <= invocations evs
    /\ invocations evs <= max_steps self.
Proof.
  rewrite run_unfold.
  destruct (loop_observations llm self (S (max_steps self)) 0
              {| history := seed repr_keys self post_content post_url;
                    trace := trace w
                             ++ [HistorySet
                                   (seed repr_keys self post_content
                                         post_url)] |}
              (seed_prefixed repr_keys self post_content post_url))
    as (r & h' & evs & E & Htc & _).
  destruct (loop_invariant llm self (S (max_steps self)) 0
              {| history := seed repr_keys self post_content post_url;
                    trace := trace w
                             ++ [HistorySet
                                   (seed repr_keys self post_content
                                         post_url)] |})
    as (r' & h'' & evs' & E' & _ & Hinv & _);
    [lia | exact (seed_ok repr_keys self post_content post_url)
     | reflexivity |].
  cbn [trace] in E, E'. rewrite E in E'. injection E' as _ _ Hevs.
  apply app_inv_head in Hevs. subst evs'.
  rewrite E. cbn [snd trace].
  exists (HistorySet (seed repr_keys self post_content post_url) :: evs).
  split; [now rewrite <- app_assoc|]. simpl. split; lia.
Qed.

(** X4.  Whatever the model and the tools give, every user turn that a run
    adds to the history begins with [Observation: ]. *)
Theorem observations_always_prefixed
        llm repr_keys self post_content post_url (w : world) :
  observations_prefixed
    (history (snd (run llm repr_keys self post_content post_url w))).
Proof.
  rewrite run_unfold.
  destruct (loop_observations llm self (S (max_steps self)) 0
              {| history := seed repr_keys self post_content post_url;
                    trace := trace w
                             ++ [HistorySet
                                   (seed repr_keys self post_content
                                         post_url)] |}
              (seed_prefixed repr_keys self post_content post_url))
    as (r & h' & evs & -> & _ & H & _).
  exact H.
Qed.

(** X5.  The text a run returns is trimmed: the final answer and the
    exhaustion message have no white space at either end. *)
Theorem returned_answer_trimmed
        llm repr_keys self post_content post_url (w : world) (answer : str) :
  fst (run llm repr_keys self post_content post_url w) = Ok (Some answer) ->
  strip answer = answer.
Proof.
  rewrite run_unfold.
  destruct (loop_observations llm self (S (max_steps self)) 0
              {| history := seed repr_keys self post_content post_url;
                    trace := trace w
                             ++ [HistorySet
                                   (seed repr_keys self post_content
                                         post_url)] |}
              (seed_prefixed repr_keys self post_content post_url))
    as (r & h' & evs & -> & _ & _ & H).
  cbn [fst]. exact (H answer).
Qed.

Lemma returned_answer_trimmed_witness :
  fst (run (Examples.always Examples.answer_now) Examples.repr_keys
           Examples.agent [] [] Examples.fresh)
  = Ok (Some (lit "* It is a joke."))
  /\ strip (lit "* It is a joke.") = lit "* It is a joke.".
Proof.
  assert (fst (run (Examples.always Examples.answer_now) Examples.repr_keys
                   Examples.agent [] [] Examples.fresh)
          = Ok (Some (lit "* It is a joke."))) as H
      by (vm_compute; reflexivity).
  split; [exact H|].
  exact (returned_answer_trimmed
           (Examples.always Examples.answer_now) Examples.repr_keys
           Examples.agent [] [] Examples.fresh (lit "* It is a joke.") H).
Defined.

(** X6.  With a budget of no step, a run sets the seed and returns the
    exhaustion message without calling the model or a tool. *)
Theorem zero_budget llm repr_keys self post_content post_url (w : world) :
  max_steps self = 0 ->
  run llm repr_keys self post_content post_url w
  = (Ok (Some exhausted),
     {| history := seed repr_keys self post_content post_url;
        trace := trace w
                 ++ [HistorySet
                       (seed repr_keys self post_content post_url)] |}).
Proof.
  intros H. rewrite run_unfold. apply loop_done. lia.
Qed.

Lemma zero_budget_witness :
  fst (run Examples.no_model Examples.repr_keys
           {| model_name := lit "gpt-4o"; tools := []; max_steps := 0 |}
           [] [] Examples.fresh)
  = Ok (Some exhausted).
Proof.
  rewrite (zero_budget Examples.no_model Examples.repr_keys
             {| model_name := lit "gpt-4o"; tools := []; max_steps := 0 |}
             [] [] Examples.fresh eq_refl).
  reflexivity.
Defined.

(** *** The extracted call and the prompt *)

Lemma lower_char_idem (c : ascii) : lower_char (lower_char c) = lower_char c.
Proof.
  destruct c as [[] [] [] [] [] [] [] []]; reflexivity.
Qed.

Lemma lower_idem (s : str) : lower (lower s) = lower s.
Proof.
  unfold lower. rewrite map_map. apply map_ext. apply lower_char_idem.
Qed.

(** X7.  A tool call that the step extracts has a name without upper-case
    letters and a trimmed input, so that the registry is looked up without
    regard to case. *)
Theorem extracted_call_normalised (text name input : str) :
  extract text = Ok (name, input) ->
  lower name = name /\ strip input = input.
Proof.
  unfold extract.
  destruct (getitem (filter (startswith Action) (split nl text)) 0)
    as [action_line|]; cbn [bind]; [|discriminate].
  destruct (getitem (split Action action_line) 1) as [after_action|];
    cbn [bind]; [|discriminate].
  destruct (getitem (filter (startswith Action_Input) (split nl text)) 0)
    as [input_line|]; cbn [bind]; [|discriminate].
  destruct (getitem (split Action_Input input_line) 1) as [after_input|];
    cbn [bind]; [|discriminate].
  intros [= <- <-]. split; [apply lower_idem | apply strip_idem].
Qed.

Lemma extracted_call_normalised_witness :
  extract Examples.search_cats = Ok (lit "search", lit "cats in hats")
  /\ lower (lit "search") = lit "search".
Proof.
  split; [reflexivity|].
  exact (proj1 (extracted_call_normalised
                  Examples.search_cats (lit "search") (lit "cats in hats")
                  eq_refl)).
Defined.

(** X8.  The system prompt lists every tool of the registry, as a line
    [- name: description], and holds the names once more as the list the
    action has to be taken from. *)
Theorem system_prompt_lists_tools repr_keys self (name : str) (tool : Tool) :
  In (name, tool) (tools self) ->
  contains (lit "- " ++ name ++ lit ": " ++ description tool)
           (_construct_system_prompt repr_keys self) = true
  /\ contains (repr_keys (map fst (tools self)))
              (_construct_system_prompt repr_keys self) = true.
Proof.
  intros Hin. unfold _construct_system_prompt. cbv zeta. split.
  - match goal with
    | |- context [join nl (map ?f ?l)] =>
        destruct (join_In nl (map f l) (f (name, tool))
                          (in_map f l (name, tool) Hin))
          as (pre & post & E)
    end.
    rewrite E. cbv beta iota. apply contains_iff.
    match goal with
    | |- exists a b, ?p ++ (pre ++ _ ++ post) ++ ?r = _ =>
        exists (p ++ pre), (post ++ r); set (before := p); set (after := r)
    end.
    rewrite <- !app_assoc. reflexivity.
  - apply contains_iff.
    match goal with
    | |- exists a b,
          ?p ++ ?t ++ ?q1 ++ ?q2 ++ ?q3 ++ ?q4 ++ ?q5 ++ _ ++ ?r = _ =>
        exists (p ++ t ++ q1 ++ q2 ++ q3 ++ q4 ++ q5), r;
        set (before := p); set (listing := t); set (after := r)
    end.
    rewrite <- !app_assoc. reflexivity.
Qed.

Lemma system_prompt_lists_tools_witness :
  contains (lit "- vision: " ++ description (VisionTool Examples.no_vision))
           (_construct_system_prompt Examples.repr_keys Examples.agent)
  = true.
Proof.
  apply (system_prompt_lists_tools
           Examples.repr_keys Examples.agent (lit "vision")
           (VisionTool Examples.no_vision)).
  right. left. reflexivity.
Defined.

(** *** A post URL of the documented shape *)

Lemma find_after_free (c : ascii) (m h t : str) :
  ~ In c h -> find (c :: m) (h ++ (c :: m) ++ t) = Some (length h).
Proof.
  induction h as [|x h IH]; intros Hc.
  - apply startswith_find. apply (startswith_app (c :: m) t).
  - change ((x :: h) ++ (c :: m) ++ t) with (x :: (h ++ (c :: m) ++ t)).
    cbn [find startswith length].
    assert (Ascii.eqb c x = false) as ->.
    { apply Ascii.eqb_neq. intros ->. apply Hc. now left. }
    cbn [andb]. rewrite IH; [reflexivity|].
    intros Hin. apply Hc. now right.
Qed.

Lemma before_first_char_free (c : ascii) (h : str) :
  ~ In c h -> before_first [c] h = h.
Proof.
  induction h as [|x h IH]; intros Hc; [apply before_first_nil|].
  rewrite before_first_cons. cbn [startswith].
  assert (Ascii.eqb c x = false) as ->.
  { apply Ascii.eqb_neq. intros ->. apply Hc. now left. }
  cbn [andb]. rewrite IH; [reflexivity|].
  intros Hin. apply Hc. now right.
Qed.

Lemma firstn_length_app (a b : str) : firstn (length a) (a ++ b) = a.
Proof.
  rewrite firstn_app, firstn_all, Nat.sub_diag. simpl. apply app_nil_r.
Qed.

Lemma skipn_length_app (a b c : str) :
  skipn (length a + length b) (a ++ b ++ c) = c.
Proof.
  rewrite app_assoc, <- length_app, skipn_app, skipn_all, Nat.sub_diag.
  reflexivity.
Qed.

Lemma first_segment (rkey suffix : str) :
  ~ In "/"%char rkey ->
  suffix = [] \/ startswith slash suffix = true ->
  before_first slash (rkey ++ suffix) = rkey.
Proof.
  intros Hr [->|Hs].
  - rewrite app_nil_r. now apply before_first_char_free.
  - apply startswith_inv in Hs. rewrite Hs.
    unfold before_first. change slash with ["/"%char].
    rewrite (find_after_free "/"%char [] rkey _ Hr).
    apply firstn_length_app.
Qed.

Lemma parse_post_url_of (handle rkey suffix : str) :
  ~ In "/"%char handle ->
  ~ In "/"%char rkey ->
  suffix = [] \/ startswith slash suffix = true ->
  contains profile_marker (handle ++ post_marker ++ rkey ++ suffix) = false ->
  contains profile_marker (post_url_of handle rkey suffix) = true
  /\ contains post_marker (post_url_of handle rkey suffix) = true
  /\ parse_url (post_url_of handle rkey suffix) = Ok (handle, rkey).
Proof.
  intros Hh Hr Hs Hfree.
  assert (contains profile_marker (post_url_of handle rkey suffix) = true)
    as HP.
  { apply contains_iff.
    now exists (lit "https://"), (handle ++ post_marker ++ rkey ++ suffix). }
  assert (find post_marker (handle ++ post_marker ++ rkey ++ suffix)
          = Some (length handle)) as HQ.
  { exact (find_after_free "/"%char (lit "post/") handle (rkey ++ suffix)
                           Hh). }
  assert (profile_segment (post_url_of handle rkey suffix)
          = handle ++ post_marker ++ rkey ++ suffix) as Hseg.
  { unfold profile_segment.
    assert (after_first profile_marker (post_url_of handle rkey suffix)
            = handle ++ post_marker ++ rkey ++ suffix) as -> by reflexivity.
    now apply before_first_none. }
  split; [exact HP|]. split.
  - apply contains_iff.
    exists (lit "https://" ++ profile_marker ++ handle), (rkey ++ suffix).
    unfold post_url_of. now rewrite <- !app_assoc.
  - rewrite (parse_url_segment _ HP), Hseg.
    unfold contains, before_first, after_first. rewrite HQ.
    rewrite firstn_length_app, skipn_length_app.
    fold (before_first slash (rkey ++ suffix)).
    now rewrite (first_segment rkey suffix Hr Hs).
Qed.

(** X9.  A post URL of the documented shape is taken apart into its
    handle and record key: for [https://bsky.app/profile/HANDLE/post/RKEY],
    with nothing or a path after it, where the handle and the record key
    have no slash and no second [bsky.app/profile/] follows the first,
    [execute] resolves HANDLE, asks for the post RKEY of the identity it
    got, and returns the text of the post under [Post Content by @HANDLE:],
    with one [Image URL:] line for each image that has a full size. *)
Theorem post_url_round_trip
        resolve_handle get_post_thread (now : nat)
        (handle rkey suffix did : str) (post : post_view) :
  ~ In "/"%char handle ->
  ~ In "/"%char rkey ->
  suffix = [] \/ startswith slash suffix = true ->
  contains profile_marker (handle ++ post_marker ++ rkey ++ suffix) = false ->
  parse_url (post_url_of handle rkey suffix) = Ok (handle, rkey)
  /\ (resolve_handle now handle = Ok did ->
      get_post_thread now (lit "at://" ++ did
                               ++ lit "/app.bsky.feed.post/" ++ rkey)
      = Ok (Some post) ->
      BlueskyTool_execute resolve_handle get_post_thread now
                          (post_url_of handle rkey suffix)
      = lit "Post Content by @" ++ handle ++ lit ":" ++ nl
            ++ text post ++ embed_lines (post_embed post)).
Proof.
  intros Hh Hr Hs Hfree.
  destruct (parse_post_url_of handle rkey suffix Hh Hr Hs Hfree)
    as (HP & HQ & Hparse).
  split; [exact Hparse|]. intros Hdid Hpost.
  unfold BlueskyTool_execute. fold profile_marker post_marker.
  rewrite HP, HQ. cbn [negb orb]. rewrite Hparse. cbn [bind].
  rewrite Hdid. cbn [bind]. rewrite Hpost. reflexivity.
Qed.

Lemma post_url_round_trip_witness :
  post_url_of (lit "alice.bsky.social") (lit "abc123") (lit "/")
  = Examples.alice_post
  /\ BlueskyTool_execute Examples.one_handle Examples.one_thread 0
                         Examples.alice_post
     = lit "Post Content by @alice.bsky.social:" ++ nl
           ++ lit "lol this is peak" ++ nl
           ++ lit "Image URL: https://cdn/img.jpg".
Proof.
  split; [reflexivity|].
  refine (proj2 (post_url_round_trip
                   Examples.one_handle Examples.one_thread 0
                   (lit "alice.bsky.social") (lit "abc123") (lit "/")
                   (lit "did:plc:abc") Examples.one_post _ _ _ _)
                eq_refl eq_refl).
  - vm_compute. intuition discriminate.
  - vm_compute. intuition discriminate.
  - right. reflexivity.
  - reflexivity.
Defined.

(* ===================================================================== *)
(** ** More about the harness and the command line *)
(* ===================================================================== *)

(** What a run comes to: an answer or the exception of the model, at most
    [max_steps] calls of the model, and nothing but its own events added to
    the trace. *)
Lemma run_outcome llm repr_keys self post_content post_url (w : world) :
  exists r h' evs,
    run llm repr_keys self post_content post_url w
    = (r, {| history := h'; trace := trace w ++ evs |})
    /\ invocations evs <= max_steps self
    /\ match r with
       | Ok (Some _) => True
       | Ok None => False
       | Raise e => exists now m h, llm now m h = Raise e
       end.
Proof.
  rewrite run_unfold.
  destruct (loop_invariant llm self (S (max_steps self)) 0
              {| history := seed repr_keys self post_content post_url;
                 trace := trace w
                          ++ [HistorySet
                                (seed repr_keys self post_content
                                      post_url)] |})
    as (r & h' & evs & E & _ & Hinv & _ & Hr);
    [lia | exact (seed_ok repr_keys self post_content post_url)
     | reflexivity |].
  cbn [trace] in E. rewrite E.
  exists r, h',
    (HistorySet (seed repr_keys self post_content post_url) :: evs).
  split; [now rewrite <- app_assoc|]. split; [simpl; lia | exact Hr].
Qed.

(** The score of a judging: what the decoder makes of the judge's reply,
    or the fixed score. *)
Lemma judge_output_value
      judge json_loads (original_post gold_standard agent_output : str)
      (w : world) :
  Harness._judge_output judge json_loads original_post gold_standard
                        agent_output w
  = (Ok (match bind (judge (length (trace w))
                           (judge_messages original_post gold_standard
                                           agent_output))
                    json_loads with
         | Ok score => score
         | Raise _ => Harness.judging_error
         end),
     {| history := history w;
        trace := trace w
                 ++ [JudgeCompletion
                       (judge_messages original_post gold_standard
                                       agent_output)] |}).
Proof.
  unfold Harness._judge_output, try_M, bindM, Harness.judge_chat, lift.
  fold (judge_messages original_post gold_standard agent_output).
  destruct (judge (length (trace w))
                  (judge_messages original_post gold_standard agent_output))
    as [reply|e]; cbn [bind]; [|reflexivity].
  now destruct (json_loads reply).
Qed.

(** X10.  For a case that has the keys the harness reads: when the run of
    the agent raises, [evaluate_case] catches the exception.  The agent's
    output is [Error: ] followed by its description; the judge is called,
    once, with the prompt made of that output; and the result has the id
    of the case, that output, and the score of that judging. *)
Theorem run_failure_is_judged
        llm repr_keys judge json_loads (agent : Agent) (case : Harness.Case)
        (w w1 : world) (e : exn) :
  run llm repr_keys agent
      (match Harness.post_content case with
       | Some c => c
       | None => []
       end)
      (Harness.post_url case) w
  = (Raise e, w1) ->
  Harness.evaluate_case llm repr_keys judge json_loads agent case w
  = (Ok (Some
           {| Harness.result_id := Harness.case_id case;
              Harness.agent_output := lit "Error: " ++ msg e;
              Harness.scores :=
                match bind (judge (length (trace w1))
                                  (judge_messages
                                     (match Harness.post_content case with
                                      | Some c => c
                                      | None => lit "Contentfetched from URL"
                                      end)
                                     (Harness.gold_standard case)
                                     (lit "Error: " ++ msg e)))
                           json_loads with
                | Ok score => score
                | Raise _ => Harness.judging_error
                end |}),
     {| history := history w1;
        trace := trace w1
                 ++ [JudgeCompletion
                       (judge_messages
                          (match Harness.post_content case with
                           | Some c => c
                           | None => lit "Contentfetched from URL"
                           end)
                          (Harness.gold_standard case)
                          (lit "Error: " ++ msg e))] |}).
Proof.
  intros H. unfold Harness.evaluate_case. unfold bindM at 1.
  unfold try_M at 1. rewrite H. unfold ret at 1.
  unfold bindM. rewrite judge_output_value. reflexivity.
Qed.

Lemma run_failure_is_judged_witness :
  exists result w',
    Harness.evaluate_case Examples.no_model Examples.repr_keys
                          Examples.no_judge Examples.no_json
                          Examples.agent Examples.a_case Examples.fresh
    = (Ok (Some result), w')
    /\ Harness.agent_output result = lit "Error: Connection error."
    /\ Harness.scores result = Harness.judging_error.
Proof.
  assert (exists w1,
             run Examples.no_model Examples.repr_keys Examples.agent
                 (match Harness.post_content Examples.a_case with
                  | Some c => c
                  | None => []
                  end)
                 (Harness.post_url Examples.a_case) Examples.fresh
             = (Raise Examples.unreachable, w1)) as [w1 H]
      by (vm_compute; eexists; reflexivity).
  rewrite (run_failure_is_judged
             Examples.no_model Examples.repr_keys Examples.no_judge
             Examples.no_json Examples.agent Examples.a_case
             Examples.fresh w1 Examples.unreachable H).
  eexists _, _. split; [reflexivity|]. split; reflexivity.
Defined.

(** *** The averages of a model *)

Lemma rating_ok_inv (j : exc Harness.json) :
  rating_ok j = true ->
  exists z, j = Ok (Harness.JInt z) /\ (1 <= z <= 5)%Z.
Proof.
  destruct j as [[| | z | | |]|]; simpl; try discriminate.
  intros H. apply andb_prop in H as [H1 H2].
  exists z. split; [reflexivity|]. lia.
Qed.

Lemma sum_scores_in_range (key : str) (rs : list Harness.Result) :
  Forall (fun r => rating_ok (Harness.subscript (Harness.scores r) key)
                   = true) rs ->
  forall total,
  exists s,
    Harness.sum_scores key total rs = Ok s
    /\ (total + Z.of_nat (length rs) <= s
        <= total + 5 * Z.of_nat (length rs))%Z.
Proof.
  induction 1 as [|r rs Hr _ IH]; intros total.
  - exists total. split; [reflexivity|]. simpl. lia.
  - apply rating_ok_inv in Hr as (z & Hz & Hrange).
    cbn [Harness.sum_scores]. rewrite Hz. cbn [bind Harness.add].
    destruct (IH (total + z)%Z) as (s & -> & Hs).
    exists s. split; [reflexivity|]. cbn [length]. lia.
Qed.

Lemma pos_of_length (n : nat) : Z.pos (Pos.of_nat (S n)) = Z.of_nat (S n).
Proof.
  rewrite <- (positive_nat_Z (Pos.of_nat (S n))).
  now rewrite Nat2Pos.id.
Qed.

Lemma averages_bounds (model_results : list Harness.Result) :
  model_results <> [] ->
  Forall ratings_in_range model_results ->
  exists stats,
    Harness.averages model_results = Ok stats
    /\ (1 <= Harness.avg_factuality stats <= 5)%Q
    /\ (1 <= Harness.avg_utility stats <= 5)%Q
    /\ Harness.details stats = model_results.
Proof.
  intros Hne Hall. unfold Harness.averages.
  destruct (sum_scores_in_range (lit "factuality") model_results) with
    (total := 0%Z) as (fact & -> & Hf).
  { eapply Forall_impl; [|exact Hall]. now intros r [H _]. }
  destruct (sum_scores_in_range (lit "utility") model_results) with
    (total := 0%Z) as (util & Hu' & Hu).
  { eapply Forall_impl; [|exact Hall]. now intros r [_ H]. }
  destruct model_results as [|r rs]; [congruence|].
  cbn [bind Harness.truediv length]. rewrite Hu'. cbn [bind].
  eexists. split; [reflexivity|].
  cbn [Harness.avg_factuality Harness.avg_utility Harness.details].
  unfold Qle. cbn [Qnum Qden]. rewrite pos_of_length.
  cbn [length] in Hf, Hu. repeat split; lia.
Qed.

(** X11.  When every result has ratings from 1 to 5 and there is a result,
    the averages are computed, and both lie between 1 and 5. *)
Theorem averages_in_range (model_results : list Harness.Result) :
  model_results <> [] ->
  Forall ratings_in_range model_results ->
  exists stats,
    Harness.averages model_results = Ok stats
    /\ (1 <= Harness.avg_factuality stats <= 5)%Q
    /\ (1 <= Harness.avg_utility stats <= 5)%Q
    /\ Harness.details stats = model_results.
Proof. exact (averages_bounds model_results). Qed.

Lemma averages_in_range_witness :
  exists stats,
    Harness.averages [Examples.good_result] = Ok stats
    /\ (1 <= Harness.avg_factuality stats <= 5)%Q.
Proof.
  destruct (averages_in_range [Examples.good_result]) as (stats & E & H & _).
  - discriminate.
  - constructor; [split; reflexivity | constructor].
  - now exists stats.
Defined.

Lemma sum_scores_failed (key : str) (rs : list Harness.Result) :
  key = lit "factuality" \/ key = lit "utility" ->
  Forall (fun r => Harness.scores r = Harness.judging_error) rs ->
  forall total, Harness.sum_scores key total rs = Ok total.
Proof.
  intros Hkey. induction 1 as [|r rs Hr _ IH]; intros total; [reflexivity|].
  cbn [Harness.sum_scores]. rewrite Hr.
  assert (Harness.subscript Harness.judging_error key
          = Ok (Harness.JInt 0)) as ->
      by (destruct Hkey as [->| ->]; reflexivity).
  cbn [bind Harness.add]. rewrite Z.add_0_r. apply IH.
Qed.

(** X12.  A judging that failed counts as a rating of 0: when every
    judging of a model failed, both averages are 0, and nothing is
    raised. *)
Theorem failed_judgings_average_zero (model_results : list Harness.Result) :
  model_results <> [] ->
  Forall (fun r => Harness.scores r = Harness.judging_error) model_results ->
  exists stats,
    Harness.averages model_results = Ok stats
    /\ (Harness.avg_factuality stats == 0)%Q
    /\ (Harness.avg_utility stats == 0)%Q.
Proof.
  intros Hne Hall. unfold Harness.averages.
  rewrite (sum_scores_failed (lit "factuality") model_results
                             (or_introl eq_refl) Hall).
  rewrite (sum_scores_failed (lit "utility") model_results
                             (or_intror eq_refl) Hall).
  destruct model_results as [|r rs]; [congruence|].
  cbn [bind Harness.truediv length]. eexists. split; [reflexivity|].
  split; reflexivity.
Qed.

Lemma failed_judgings_average_zero_witness :
  exists stats,
    Harness.averages [Examples.failed_result; Examples.failed_result]
    = Ok stats
    /\ (Harness.avg_factuality stats == 0)%Q.
Proof.
  destruct (failed_judgings_average_zero
              [Examples.failed_result; Examples.failed_result])
    as (stats & E & H & _).
  - discriminate.
  - repeat constructor.
  - now exists stats.
Defined.

(** *** The results of a benchmark *)

Lemma dict_set_In {V} (d : list (str * V)) (key : str) (value : V) (x : str) :
  In x (map fst (Harness.dict_set d key value))
  <-> In x (map fst d) \/ x = key.
Proof.
  induction d as [|[k v] d IH]; [simpl; intuition congruence|].
  cbn [Harness.dict_set]. destruct (str_eqb k key) eqn:E.
  - apply str_eqb_eq in E. subst k. simpl. intuition congruence.
  - cbn [map fst In]. rewrite IH. simpl. tauto.
Qed.

Lemma dict_set_NoDup {V} (d : list (str * V)) (key : str) (value : V) :
  NoDup (map fst d) -> NoDup (map fst (Harness.dict_set d key value)).
Proof.
  induction d as [|[k v] d IH]; intros H.
  - simpl. constructor; [now intros [] | constructor].
  - cbn [Harness.dict_set]. destruct (str_eqb k key) eqn:E; [exact H|].
    apply str_eqb_neq in E. cbn [map fst] in H |- *.
    inversion H as [|? ? Hnin Hnd]; subst.
    constructor; [|now apply IH].
    rewrite dict_set_In. intros [Hin| ->]; [now apply Hnin | now apply E].
Qed.

Lemma benchmark_loop_keys
      llm repr_keys ddgs_text vision_completions resolve_handle
      get_post_thread judge json_loads cases (models : list str) :
  forall benchmark_results w results,
    fst (Harness.benchmark_loop
           llm repr_keys ddgs_text vision_completions resolve_handle
           get_post_thread judge json_loads cases models
           benchmark_results w)
    = Ok (Some results) ->
    NoDup (map fst benchmark_results) ->
    NoDup (map fst results)
    /\ forall model,
        In model (map fst results)
        <-> In model (map fst benchmark_results) \/ In model models.
Proof.
  induction models as [|m models IH]; intros acc w results.
  - cbn [Harness.benchmark_loop]. unfold ret. cbn [fst].
    intros [= <-] Hnd. split; [exact Hnd|]. intros model. simpl. tauto.
  - cbn [Harness.benchmark_loop]. unfold bindM at 1.
    destruct (Harness.benchmark_model _ _ _ _ _ _ _ _ _ m w)
      as [[[stats|]|e] w1]; [| discriminate | discriminate].
    intros H Hnd.
    destruct (IH _ _ _ H (dict_set_NoDup acc m stats Hnd)) as [H1 H2].
    split; [exact H1|]. intros model. rewrite H2, dict_set_In.
    simpl. intuition congruence.
Qed.

(** X13.  A benchmark that comes to its end has exactly one entry for
    each model it was asked for: a model named twice is run twice and
    keeps one entry. *)
Theorem one_entry_per_model
        llm repr_keys ddgs_text vision_completions resolve_handle
        get_post_thread judge json_loads cases (models : list str)
        (w : world) (results : list (str * Harness.Stats)) :
  fst (Harness.run_benchmark
         llm repr_keys ddgs_text vision_completions resolve_handle
         get_post_thread judge json_loads cases models w)
  = Ok (Some results) ->
  NoDup (map fst results)
  /\ forall model, In model (map fst results) <-> In model models.
Proof.
  intros H. unfold Harness.run_benchmark in H.
  destruct (benchmark_loop_keys _ _ _ _ _ _ _ _ _ _ _ _ _ H (NoDup_nil _))
    as [H1 H2].
  split; [exact H1|]. intros model. rewrite H2. simpl. tauto.
Qed.

Lemma one_entry_per_model_witness :
  exists results,
    fst (Harness.run_benchmark
           (Examples.always Examples.answer_now) Examples.repr_keys
           Examples.no_hits Examples.no_vision Examples.no_handle
           Examples.no_thread Examples.fair_judge Examples.fair_json
           [Examples.a_case] [lit "gpt-4o"; lit "gpt-4o"] Examples.fresh)
    = Ok (Some results)
    /\ NoDup (map fst results).
Proof.
  assert (exists results,
             fst (Harness.run_benchmark
                    (Examples.always Examples.answer_now) Examples.repr_keys
                    Examples.no_hits Examples.no_vision Examples.no_handle
                    Examples.no_thread Examples.fair_judge Examples.fair_json
                    [Examples.a_case] [lit "gpt-4o"; lit "gpt-4o"]
                    Examples.fresh)
             = Ok (Some results)) as [results E]
      by (vm_compute; eexists; reflexivity).
  exists results. split; [exact E|].
  exact (proj1 (one_entry_per_model
                  (Examples.always Examples.answer_now) Examples.repr_keys
                  Examples.no_hits Examples.no_vision Examples.no_handle
                  Examples.no_thread Examples.fair_judge Examples.fair_json
                  [Examples.a_case] [lit "gpt-4o"; lit "gpt-4o"]
                  Examples.fresh results E)).
Defined.

(** *** The command line *)

Lemma agent_then_run
      llm repr_keys ddgs_text vision_completions resolve_handle
      get_post_thread (model post_content post_url : str) (w : world) :
  bindM (Harness.BlueskyAgent ddgs_text vision_completions resolve_handle
                              get_post_thread model)
        (fun agent => run llm repr_keys agent post_content post_url) w
  = run llm repr_keys
        {| model_name := model;
           tools := get_tools ddgs_text vision_completions resolve_handle
                              get_post_thread;
           max_steps := 5 |}
        post_content post_url
        {| history := []; trace := trace w ++ [HistorySet []] |}.
Proof. reflexivity. Qed.

(** X14.  [main] starts no run that is not prepared: without a URL and
    without a content it prints the request for one of them, and without
    the API key the error about it, and in both cases nothing is called.
    Otherwise it builds the agent and runs it, with at most five calls of
    the model: when the run returns, [main] prints the explanation under
    its heading; when the run raises, [main] prints [An error occurred: ]
    followed by the description of the exception. *)
Theorem main_preflight
        llm repr_keys ddgs_text vision_completions resolve_handle
        get_post_thread (api_key url content : option str) (w : world) :
  (Main.truthy url = false -> Main.truthy content = false ->
   Main.main llm repr_keys ddgs_text vision_completions resolve_handle
             get_post_thread api_key url content w
   = ([Main.missing_input], w))
  /\ (Main.truthy api_key = false ->
      snd (Main.main llm repr_keys ddgs_text vision_completions
                     resolve_handle get_post_thread api_key url content w)
      = w)
  /\ invocations
       (trace (snd (Main.main llm repr_keys ddgs_text vision_completions
                              resolve_handle get_post_thread api_key url
                              content w)))
     <= invocations (trace w) + 5
  /\ ((forall now m h e, llm now m h <> Raise e) ->
      Main.truthy api_key = true ->
      Main.truthy url = true \/ Main.truthy content = true ->
      exists explanation,
        fst (Main.main llm repr_keys ddgs_text vision_completions
                       resolve_handle get_post_thread api_key url content w)
        = [Main.banner (Main.value_or url [])
                       (Main.value_or content Main.content_not_provided);
           nl ++ lit "=== Agent Explanation ===" ++ nl;
           explanation])
  /\ (Main.truthy api_key = true ->
      Main.truthy url = true \/ Main.truthy content = true ->
      (forall explanation,
          fst (run llm repr_keys
                   (main_agent ddgs_text vision_completions resolve_handle
                               get_post_thread)
                   (Main.value_or content Main.content_not_provided)
                   (Main.value_or url []) (agent_built w))
          = Ok (Some explanation) ->
          fst (Main.main llm repr_keys ddgs_text vision_completions
                         resolve_handle get_post_thread api_key url content
                         w)
          = [Main.banner (Main.value_or url [])
                         (Main.value_or content Main.content_not_provided);
             nl ++ lit "=== Agent Explanation ===" ++ nl;
             explanation])
      /\ (forall e,
             fst (run llm repr_keys
                      (main_agent ddgs_text vision_completions
                                  resolve_handle get_post_thread)
                      (Main.value_or content Main.content_not_provided)
                      (Main.value_or url []) (agent_built w))
             = Raise e ->
             fst (Main.main llm repr_keys ddgs_text vision_completions
                            resolve_handle get_post_thread api_key url
                            content w)
             = [Main.banner (Main.value_or url [])
                            (Main.value_or content
                                           Main.content_not_provided);
                lit "An error occurred: " ++ msg e])).
Proof.
  unfold Main.main, main_agent, agent_built.
  destruct (run_outcome llm repr_keys
              {| model_name := lit "gpt-4o";
                 tools := get_tools ddgs_text vision_completions
                                    resolve_handle get_post_thread;
                 max_steps := 5 |}
              (Main.value_or content Main.content_not_provided)
              (Main.value_or url [])
              {| history := []; trace := trace w ++ [HistorySet []] |})
    as (r & h' & evs & E & Hinv & Hr).
  cbn [trace max_steps] in E, Hinv.
  rewrite agent_then_run, E.
  split; [|split; [|split; [|split]]].
  - intros -> ->. reflexivity.
  - intros ->. cbn [negb].
    now destruct (negb (Main.truthy url) && negb (Main.truthy content)).
  - destruct (negb (Main.truthy url) && negb (Main.truthy content));
      [cbn [snd]; lia|].
    destruct (negb (Main.truthy api_key)); [cbn [snd]; lia|].
    destruct r as [[explanation|]|e]; cbn [snd trace];
      rewrite !invocations_app; simpl; lia.
  - intros Hllm -> Hinput. cbn [negb].
    assert (negb (Main.truthy url) && negb (Main.truthy content) = false)
      as -> by (destruct Hinput as [-> | ->];
                [reflexivity | apply andb_false_r]).
    destruct r as [[explanation|]|e].
    + now exists explanation.
    + contradiction.
    + destruct Hr as (now & m & h & Hr). now apply Hllm in Hr.
  - intros -> Hinput. cbn [negb fst].
    assert (negb (Main.truthy url) && negb (Main.truthy content) = false)
      as -> by (destruct Hinput as [-> | ->];
                [reflexivity | apply andb_false_r]).
    split.
    + intros explanation ->. reflexivity.
    + intros e ->. reflexivity.
Qed.

Lemma main_preflight_witness :
  Main.main (Examples.always Examples.answer_now) Examples.repr_keys
            Examples.no_hits Examples.no_vision Examples.no_handle
            Examples.no_thread (Some (lit "sk-test"))
            (Some []) None Examples.fresh
  = ([Main.missing_input], Examples.fresh)
  /\ (exists explanation,
         fst (Main.main (Examples.always Examples.answer_now)
                        Examples.repr_keys Examples.no_hits
                        Examples.no_vision Examples.no_handle
                        Examples.no_thread (Some (lit "sk-test")) None
                        (Some (lit "lol this is peak")) Examples.fresh)
         = [Main.banner [] (lit "lol this is peak");
            nl ++ lit "=== Agent Explanation ===" ++ nl;
            explanation])
  /\ fst (Main.main Examples.no_model Examples.repr_keys Examples.no_hits
                    Examples.no_vision Examples.no_handle Examples.no_thread
                    (Some (lit "sk-test")) None
                    (Some (lit "lol this is peak")) Examples.fresh)
     = [Main.banner [] (lit "lol this is peak");
        lit "An error occurred: Connection error."].
Proof.
  split; [|split].
  - apply (main_preflight
             (Examples.always Examples.answer_now) Examples.repr_keys
             Examples.no_hits Examples.no_vision Examples.no_handle
             Examples.no_thread (Some (lit "sk-test")) (Some []) None
             Examples.fresh); reflexivity.
  - apply (main_preflight
             (Examples.always Examples.answer_now) Examples.repr_keys
             Examples.no_hits Examples.no_vision Examples.no_handle
             Examples.no_thread (Some (lit "sk-test")) None
             (Some (lit "lol this is peak")) Examples.fresh).
    + intros now m h e. discriminate.
    + reflexivity.
    + right. reflexivity.
  - destruct (main_preflight
                Examples.no_model Examples.repr_keys Examples.no_hits
                Examples.no_vision Examples.no_handle Examples.no_thread
                (Some (lit "sk-test")) None (Some (lit "lol this is peak"))
                Examples.fresh) as (_ & _ & _ & _ & H).
    destruct H as [_ H]; [reflexivity | right; reflexivity |].
    apply (H Examples.unreachable). vm_compute. reflexivity.
Defined.

(** *** A whole benchmark *)

Lemma evaluate_case_scored
      llm repr_keys judge json_loads (agent : Agent) (case : Harness.Case)
      (w : world) :
  judge_in_range judge json_loads ->
  exists result w',
    Harness.evaluate_case llm repr_keys judge json_loads agent case w
    = (Ok (Some result), w')
    /\ ratings_in_range result.
Proof.
  intros Hjudge.
  assert (forall original_post gold_standard agent_output w0,
             exists score w',
               Harness._judge_output judge json_loads original_post
                                     gold_standard agent_output w0
               = (Ok score, w')
               /\ rating_ok (Harness.subscript score (lit "factuality"))
                  = true
               /\ rating_ok (Harness.subscript score (lit "utility"))
                  = true) as J.
  { intros original_post gold_standard agent_output w0.
    unfold Harness._judge_output, try_M, bindM, Harness.judge_chat, lift.
    destruct (Hjudge (length (trace w0))
                [ {| role := lit "system";
                     content := lit "You are an evaluation judge." |};
                  {| role := lit "user";
                     content := Harness.judge_prompt original_post
                                                     gold_standard
                                                     agent_output |} ])
      as (reply & score & -> & E & H1 & H2).
    rewrite E. now eexists _, _. }
  unfold Harness.evaluate_case. unfold bindM at 1. unfold try_M at 1.
  destruct (run_outcome llm repr_keys agent
              (match Harness.post_content case with
               | Some c => c
               | None => []
               end)
              (Harness.post_url case) w)
    as (r & h' & evs & -> & _ & Hr).
  destruct r as [[answer|]|e]; [| contradiction |].
  - destruct (J (match Harness.post_content case with
                 | Some c => c
                 | None => lit "Contentfetched from URL"
                 end)
                (Harness.gold_standard case) answer
                {| history := h'; trace := trace w ++ evs |})
      as (score & w' & E & H1 & H2).
    unfold bindM. rewrite E. eexists _, w'.
    split; [reflexivity | now split].
  - unfold ret at 1.
    destruct (J (match Harness.post_content case with
                 | Some c => c
                 | None => lit "Contentfetched from URL"
                 end)
                (Harness.gold_standard case) (lit "Error: " ++ msg e)
                {| history := h'; trace := trace w ++ evs |})
      as (score & w' & E & H1 & H2).
    unfold bindM. rewrite E. eexists _, w'.
    split; [reflexivity | now split].
Qed.

Lemma evaluate_cases_scored
      llm repr_keys judge json_loads (agent : Agent)
      (cs : list Harness.Case) :
  judge_in_range judge json_loads ->
  forall w,
  exists results w',
    Harness.evaluate_cases llm repr_keys judge json_loads agent cs w
    = (Ok (Some results), w')
    /\ length results = length cs
    /\ Forall ratings_in_range results.
Proof.
  intros Hjudge. induction cs as [|case cs IH]; intros w.
  - exists [], w. split; [reflexivity|]. split; [reflexivity | constructor].
  - cbn [Harness.evaluate_cases]. unfold bindM at 1.
    destruct (evaluate_case_scored llm repr_keys judge json_loads agent
                case w Hjudge) as (result & w1 & -> & Hres).
    unfold bindM at 1.
    destruct (IH w1) as (results & w2 & -> & Hlen & Hall).
    exists (result :: results), w2. split; [reflexivity|].
    split; [simpl; now rewrite Hlen | now constructor].
Qed.

Lemma dict_set_Forall {V} (P : str * V -> Prop) (d : list (str * V))
      (key : str) (value : V) :
  Forall P d -> P (key, value) -> Forall P (Harness.dict_set d key value).
Proof.
  intros Hd Hv. induction Hd as [|[k v] d Hk Hd IH].
  - now repeat constructor.
  - cbn [Harness.dict_set]. destruct (str_eqb k key) eqn:E.
    + apply str_eqb_eq in E. subst k. constructor; assumption.
    + constructor; assumption.
Qed.

Lemma benchmark_loop_in_range
      llm repr_keys ddgs_text vision_completions resolve_handle
      get_post_thread judge json_loads (cases : list Harness.Case)
      (models : list str) :
  cases <> [] ->
  judge_in_range judge json_loads ->
  forall benchmark_results w,
    Forall (stats_in_range (length cases)) benchmark_results ->
    exists results w',
      Harness.benchmark_loop
        llm repr_keys ddgs_text vision_completions resolve_handle
        get_post_thread judge json_loads cases models benchmark_results w
      = (Ok (Some results), w')
      /\ Forall (stats_in_range (length cases)) results.
Proof.
  intros Hcases Hjudge.
  induction models as [|model models IH]; intros acc w Hacc.
  - now exists acc, w.
  - cbn [Harness.benchmark_loop]. unfold bindM at 1.
    unfold Harness.benchmark_model. unfold bindM at 1.
    unfold Harness.BlueskyAgent at 1. unfold bindM at 1, set_history, ret.
    unfold bindM at 1.
    match goal with
    | |- context [Harness.evaluate_cases _ _ _ _ ?agent cases ?w1] =>
        destruct (evaluate_cases_scored llm repr_keys judge json_loads
                    agent cases Hjudge w1)
          as (rs & w2 & -> & Hlen & Hall)
    end.
    destruct (averages_bounds rs) as (stats & E & Hf & Hu & Hd);
      [intros ->; destruct cases; [congruence | discriminate] | exact Hall |].
    unfold bindM at 1, lift. rewrite E. unfold ret.
    apply IH. apply dict_set_Forall; [exact Hacc|].
    split; [exact Hf|]. split; [exact Hu|]. cbn [snd]. now rewrite Hd.
Qed.

(** X15.  With a judge whose replies always decode to ratings from 1 to
    5, whenever the loop over the models (lines 75-94) comes to its end,
    every model has averages over all the cases, and they lie between 1 and
    5, whatever the model of the agent and the tools did. *)
Theorem benchmark_in_range
        llm repr_keys ddgs_text vision_completions resolve_handle
        get_post_thread judge json_loads (cases : list Harness.Case)
        (models : list str) (w : world)
        (results : list (str * Harness.Stats)) :
  judge_in_range judge json_loads ->
  fst (Harness.run_benchmark
         llm repr_keys ddgs_text vision_completions resolve_handle
         get_post_thread judge json_loads cases models w)
  = Ok (Some results) ->
  Forall (stats_in_range (length cases)) results.
Proof.
  intros Hjudge H. destruct cases as [|case cases].
  - destruct models as [|model models].
    + injection H as <-. constructor.
    + discriminate H.
  - destruct (benchmark_loop_in_range
                llm repr_keys ddgs_text vision_completions resolve_handle
                get_post_thread judge json_loads (case :: cases) models)
      with (benchmark_results := @nil (str * Harness.Stats)) (w := w)
      as (results' & w' & E & Hall);
      [discriminate | exact Hjudge | constructor |].
    unfold Harness.run_benchmark in H. rewrite E in H.
    injection H as <-. exact Hall.
Qed.

Lemma benchmark_in_range_witness :
  exists results,
    fst (Harness.run_benchmark
           Examples.no_model Examples.repr_keys Examples.no_hits
           Examples.no_vision Examples.no_handle Examples.no_thread
           Examples.fair_judge Examples.fair_json [Examples.a_case]
           Harness.default_models Examples.fresh)
    = Ok (Some results)
    /\ Forall (stats_in_range 1) results.
Proof.
  assert (exists results,
             fst (Harness.run_benchmark
                    Examples.no_model Examples.repr_keys Examples.no_hits
                    Examples.no_vision Examples.no_handle Examples.no_thread
                    Examples.fair_judge Examples.fair_json [Examples.a_case]
                    Harness.default_models Examples.fresh)
             = Ok (Some results)) as [results E]
      by (vm_compute; eexists; reflexivity).
  exists results. split; [exact E|].
  apply (benchmark_in_range
           Examples.no_model Examples.repr_keys Examples.no_hits
           Examples.no_vision Examples.no_handle Examples.no_thread
           Examples.fair_judge Examples.fair_json [Examples.a_case]
           Harness.default_models Examples.fresh results).
  - intros now messages. eexists _, _. repeat split; reflexivity.
  - exact E.
Defined.

(** *** The images of a post *)

Lemma image_lines_cons (img : image) (imgs : list image) :
  image_lines (img :: imgs)
  = match img with
    | Some fullsize => nl ++ lit "Image URL: " ++ fullsize
    | None => []
    end ++ image_lines imgs.
Proof. reflexivity. Qed.

Lemma image_lines_hold (imgs : list image) (fullsize : str) :
  In (Some fullsize) imgs ->
  contains (nl ++ lit "Image URL: " ++ fullsize) (image_lines imgs) = true.
Proof.
  intros Hin. apply contains_iff.
  induction imgs as [|img imgs IH]; [contradiction|].
  rewrite image_lines_cons. destruct Hin as [->|Hin].
  - exists [], (image_lines imgs). reflexivity.
  - destruct (IH Hin) as (pre & post & E). rewrite E.
    exists (match img with
            | Some f => nl ++ lit "Image URL: " ++ f
            | None => []
            end ++ pre), post.
    apply app_assoc.
Qed.

Lemma contains_app_r (sub a b : str) :
  contains sub b = true -> contains sub (a ++ b) = true.
Proof.
  intros H. apply contains_iff in H as (pre & post & ->).
  apply contains_iff. exists (a ++ pre), post. apply app_assoc.
Qed.

(** X16.  The text [execute] returns for a fetched post names every image
    that has a full size, on a line [Image URL: ] of its own, whether the
    images are the embed's own or those of its media. *)
Theorem fetched_post_names_images
        resolve_handle get_post_thread (now : nat)
        (url handle rkey did : str) (post : post_view) (imgs : list image)
        (fullsize : str) :
  contains profile_marker url = true ->
  contains post_marker url = true ->
  parse_url url = Ok (handle, rkey) ->
  resolve_handle now handle = Ok did ->
  get_post_thread now (lit "at://" ++ did ++ lit "/app.bsky.feed.post/"
                           ++ rkey)
  = Ok (Some post) ->
  post_embed post = ImagesView imgs
  \/ post_embed post = MediaView (Some imgs) ->
  In (Some fullsize) imgs ->
  contains (nl ++ lit "Image URL: " ++ fullsize)
           (BlueskyTool_execute resolve_handle get_post_thread now url)
  = true.
Proof.
  intros HP HQ Hparse Hdid Hpost Hembed Hin.
  unfold BlueskyTool_execute. fold profile_marker post_marker.
  rewrite HP, HQ. cbn [negb orb]. rewrite Hparse. cbn [bind].
  rewrite Hdid. cbn [bind]. rewrite Hpost. cbn [bind try_except].
  rewrite !app_assoc. apply contains_app_r.
  destruct Hembed as [-> | ->]; now apply image_lines_hold.
Qed.

Lemma fetched_post_names_images_witness :
  contains (nl ++ lit "Image URL: https://cdn/img.jpg")
           (BlueskyTool_execute Examples.one_handle Examples.one_thread 0
                                Examples.alice_post)
  = true.
Proof.
  apply (fetched_post_names_images
           Examples.one_handle Examples.one_thread 0 Examples.alice_post
           (lit "alice.bsky.social") (lit "abc123") (lit "did:plc:abc")
           Examples.one_post [Some (lit "https://cdn/img.jpg"); None]
           (lit "https://cdn/img.jpg")); try reflexivity.
  - left. reflexivity.
  - left. reflexivity.
Defined.
